(** * Wallet-signing examples: signature normalizer, server gate sequence,
    client signing widget

  A shallow embedding of
  - [customSignMessage] and [signWithAlchemy] (server signing flow), and
  - [handleSubmit] of [SignMessageDemo] (client signing widget),
  together with the JavaScript string primitives they rely on. *)

From Stdlib Require Import ZArith NArith String Ascii List Bool Lia.
From stdpp Require Import base option gmap strings list.

Local Open Scope string_scope.
Local Open Scope Z_scope.

(** ** JavaScript primitives used by the sources

    Identifiers, literals and hexadecimal signatures are [string]s, read as
    sequences of code units below 256.  The free text typed into the client
    form is a sequence of UTF-16 code units ([list N]), because its
    trimming and its UTF-8 encoding depend on the full code-unit range. *)
Module JS.

(** Relative index resolution shared by [slice]'s two arguments. *)
Definition clampIndex (len i : Z) : Z :=
  if i <? 0 then Z.max (len + i) 0 else Z.min i len.

(** [String.prototype.slice(start, end)]; [None] is an omitted [end]. *)
Definition slice (s : string) (start : Z) (stop : option Z) : string :=
  let len := Z.of_nat (String.length s) in
  let from := clampIndex len start in
  let to := match stop with
            | None => len
            | Some e => clampIndex len e
            end in
  substring (Z.to_nat from) (Z.to_nat (Z.max (to - from) 0)) s.

(** Code units removed by [parseInt] before the number starts (the
    white space and line terminators below 256). *)
Definition isWhiteSpace (c : ascii) : bool :=
  let n := Z.of_N (N_of_ascii c) in
  ((9 <=? n) && (n <=? 13)) || (n =? 32) || (n =? 160).

Fixpoint trimStart (s : string) : string :=
  match s with
  | String c s' => if isWhiteSpace c then trimStart s' else s
  | EmptyString => EmptyString
  end.

(** Value of a character as a digit in radixes up to 36. *)
Definition digitValue (c : ascii) : option Z :=
  let n := Z.of_N (N_of_ascii c) in
  if (48 <=? n) && (n <=? 57) then Some (n - 48)
  else if (97 <=? n) && (n <=? 122) then Some (n - 87)
  else if (65 <=? n) && (n <=? 90) then Some (n - 55)
  else None.

Definition radixDigit (R : Z) (c : ascii) : option Z :=
  match digitValue c with
  | Some d => if d <? R then Some d else None
  | None => None
  end.

(** Longest prefix of radix-[R] digits, most significant first. *)
Fixpoint leadingDigits (R : Z) (s : string) : list Z :=
  match s with
  | String c s' =>
      match radixDigit R c with
      | Some d => d :: leadingDigits R s'
      | None => []
      end
  | EmptyString => []
  end.

Definition mathInt (R : Z) (ds : list Z) : Z :=
  fold_left (fun acc d => acc * R + d) ds 0.

Definition stripSign (s : string) : Z * string :=
  match s with
  | String "-" s' => (-1, s')
  | String "+" s' => (1, s')
  | _ => (1, s)
  end.

Definition stripHexPrefix (s : string) : string :=
  match s with
  | String "0" (String "x" s') => s'
  | String "0" (String "X" s') => s'
  | _ => s
  end.

(** [parseInt(s, R)] for an explicit radix; [None] is [NaN]. *)
Definition parseInt (s : string) (R : Z) : option Z :=
  if (R <? 2) || (36 <? R) then None
  else
    let '(sign, s1) := stripSign (trimStart s) in
    let s2 := if R =? 16 then stripHexPrefix s1 else s1 in
    match leadingDigits R s2 with
    | [] => None
    | ds => Some (sign * mathInt R ds)
    end.

(** [x < y] on numbers where the left operand may be [NaN]. *)
Definition lessThan (x : option Z) (y : Z) : bool :=
  match x with
  | Some v => v <? y
  | None => false
  end.

(** [x + y] where [x] may be [NaN]. *)
Definition plus (x : option Z) (y : Z) : option Z :=
  match x with
  | Some v => Some (v + y)
  | None => None
  end.

Definition digitChar (d : Z) : ascii :=
  ascii_of_N (Z.to_N (if d <? 10 then 48 + d else 87 + d)).

Fixpoint digitsOf (fuel : nat) (R n : Z) (acc : string) : string :=
  match fuel with
  | O => acc
  | S fuel' =>
      let acc' := String (digitChar (n mod R)) acc in
      if n / R =? 0 then acc' else digitsOf fuel' R (n / R) acc'
  end.

(** [Number.prototype.toString(R)] on an integer or [NaN]. *)
Definition toString (x : option Z) (R : Z) : string :=
  match x with
  | None => "NaN"
  | Some n =>
      let m := Z.abs n in
      let body := digitsOf (S (Z.to_nat (Z.log2 m))) R m EmptyString in
      if n <? 0 then String "-" body else body
  end.

Fixpoint repeatString (pad : string) (n : nat) : string :=
  match n with
  | O => EmptyString
  | S n' => pad +:+ repeatString pad n'
  end.

(** [String.prototype.padStart(target, pad)]. *)
Definition padStart (s : string) (target : nat) (pad : string) : string :=
  let len := String.length s in
  if (target <=? len)%nat then s
  else match pad with
       | EmptyString => s
       | _ => substring 0 (target - len) (repeatString pad (target - len)) +:+ s
       end.

Definition startsWith (s p : string) : bool := String.prefix p s.

(** [String.prototype.split(sep)] for a one-character separator. *)
Fixpoint split (sep : ascii) (s : string) : list string :=
  match s with
  | EmptyString => [EmptyString]
  | String c s' =>
      if Ascii.eqb c sep then EmptyString :: split sep s'
      else match split sep s' with
           | x :: xs => String c x :: xs
           | [] => [String c EmptyString]
           end
  end.

(** Truthiness of a value that is a string, [undefined] or [null]. *)
Definition truthy (v : option string) : bool :=
  match v with
  | Some s => negb (String.eqb s EmptyString)
  | None => false
  end.

(** Interpolation of such a value in a template literal. *)
Definition interpolate (v : option string) : string :=
  match v with
  | Some s => s
  | None => "undefined"
  end.

(** What a call into a collaborator does: it returns or it throws (a
    rejected promise, once awaited, throws as well). *)
Inductive Outcome (A : Type) : Type :=
| Returned (a : A)
| Thrown (e : string).
Arguments Returned {A} a.
Arguments Thrown {A} e.

(** *** UTF-16 text, UTF-8 bytes and base64 *)

(** White space and line terminators removed by [String.prototype.trim]. *)
Definition isWhiteSpaceUnit (u : N) : bool :=
  (((9 <=? u) && (u <=? 13)) || (u =? 32) || (u =? 160) || (u =? 5760)
   || ((8192 <=? u) && (u <=? 8202)) || (u =? 8232) || (u =? 8233)
   || (u =? 8239) || (u =? 8287) || (u =? 12288) || (u =? 65279))%N.

Fixpoint trimStartUnits (s : list N) : list N :=
  match s with
  | u :: s' => if isWhiteSpaceUnit u then trimStartUnits s' else s
  | [] => []
  end.

Definition trimEndUnits (s : list N) : list N :=
  rev (trimStartUnits (rev s)).

(** [String.prototype.trim] *)
Definition trim (s : list N) : list N := trimEndUnits (trimStartUnits s).

Definition isHighSurrogate (u : N) : bool := ((55296 <=? u) && (u <=? 56319))%N.
Definition isLowSurrogate (u : N) : bool := ((56320 <=? u) && (u <=? 57343))%N.

(** Code points of a UTF-16 string; an unpaired surrogate reads as U+FFFD. *)
Fixpoint codePoints (s : list N) : list N :=
  match s with
  | [] => []
  | u :: rest =>
      if isHighSurrogate u then
        match rest with
        | l :: rest' =>
            if isLowSurrogate l
            then (65536 + (u - 55296) * 1024 + (l - 56320))%N :: codePoints rest'
            else 65533%N :: codePoints rest
        | [] => [65533%N]
        end
      else if isLowSurrogate u then 65533%N :: codePoints rest
      else u :: codePoints rest
  end.

Definition utf8Bytes (cp : N) : list N :=
  (if cp <? 128 then [cp]
   else if cp <? 2048 then
     [N.lor 192 (N.shiftr cp 6); N.lor 128 (N.land cp 63)]
   else if cp <? 65536 then
     [N.lor 224 (N.shiftr cp 12); N.lor 128 (N.land (N.shiftr cp 6) 63);
      N.lor 128 (N.land cp 63)]
   else
     [N.lor 240 (N.shiftr cp 18); N.lor 128 (N.land (N.shiftr cp 12) 63);
      N.lor 128 (N.land (N.shiftr cp 6) 63); N.lor 128 (N.land cp 63)])%N.

(** [Buffer.from(s)]: the UTF-8 bytes of a string. *)
Definition bufferFrom (s : list N) : list N :=
  concat (map utf8Bytes (codePoints s)).

Definition base64Alphabet : string :=
  "ABCDEFGHIJKLMNOPQRSTUVWXYZabcdefghijklmnopqrstuvwxyz0123456789+/".

Definition base64Char (n : N) : ascii :=
  match String.get (N.to_nat n) base64Alphabet with
  | Some c => c
  | None => "="%char
  end.

(** [buffer.toString("base64")] *)
Fixpoint toBase64 (bs : list N) : string :=
  match bs with
  | [] => EmptyString
  | [a] =>
      String (base64Char (N.shiftr a 2))
        (String (base64Char (N.shiftl (N.land a 3) 4)) "==")
  | [a; b] =>
      String (base64Char (N.shiftr a 2))
        (String (base64Char (N.lor (N.shiftl (N.land a 3) 4) (N.shiftr b 4)))
           (String (base64Char (N.shiftl (N.land b 15) 2)) "="))
  | a :: b :: c :: rest =>
      String (base64Char (N.shiftr a 2))
        (String (base64Char (N.lor (N.shiftl (N.land a 3) 4) (N.shiftr b 4)))
           (String (base64Char (N.lor (N.shiftl (N.land b 15) 2) (N.shiftr c 6)))
              (String (base64Char (N.land c 63)) (toBase64 rest))))
  end.

(** Code units of an ASCII literal. *)
Definition units (s : string) : list N :=
  map N_of_ascii (list_ascii_of_string s).

End JS.
Export JS(Outcome, Returned, Thrown).

(** ** Signature recovery-byte normalizer ([customSignMessage]) *)
Module Normalizer.
Import JS.

(** [parseInt(signature.slice(-2), 16)] *)
Definition lastByte (signature : string) : option Z :=
  parseInt (slice signature (-2) None) 16.

(** [(lastByte + 27).toString(16).padStart(2, "0")] *)
Definition adjustedV (lastByte : option Z) : string :=
  padStart (toString (plus lastByte 27) 16) 2 "0".

(** The value of the variable [signature] after the conditional
    assignment (the recovery-byte adjustment). *)
Definition adjustSignature (signature : string) : string :=
  let lastByte := lastByte signature in
  if lessThan lastByte 27
  then slice signature 0 (Some (-2)) +:+ adjustedV lastByte
  else signature.

(** The normalizer: what [customSignMessage] makes of the signature string
    it received; the template literal puts [0x] before the adjusted
    string. *)
Definition normalize (signature : string) : string :=
  "0x" +:+ adjustSignature signature.

(** The shape the caller guarantees: 130 hexadecimal characters, that is
    65 bytes, without prefix. *)
Definition isHexChar (c : ascii) : bool :=
  match digitValue c with
  | Some d => d <? 16
  | None => false
  end.

Definition isLowerHexChar (c : ascii) : bool :=
  let n := Z.of_N (N_of_ascii c) in
  ((48 <=? n) && (n <=? 57)) || ((97 <=? n) && (n <=? 102)).

Definition isHexString (s : string) : bool :=
  forallb isHexChar (list_ascii_of_string s).

Definition isLowerHexString (s : string) : bool :=
  forallb isLowerHexChar (list_ascii_of_string s).

Definition hexChars : list ascii :=
  list_ascii_of_string "0123456789abcdefABCDEF".

Definition hexValue (c : ascii) : Z := default 0 (digitValue c).

Definition isSignature130 (s : string) : Prop :=
  String.length s = 130%nat /\ isHexString s = true.

(** The integer value of the trailing byte, read off the last two
    characters digit by digit; this reading is the specification's, the
    code's is [lastByte]. *)
Fixpoint trailingByte (s : string) : option Z :=
  match s with
  | String c1 (String c2 EmptyString) =>
      Some (16 * hexValue c1 + hexValue c2)
  | String _ s' => trailingByte s'
  | EmptyString => None
  end.

(** A byte written as two characters. *)
Definition two (c1 c2 : ascii) : string := String c1 (String c2 EmptyString).

(** Checks run over the finitely many hexadecimal pairs and over the
    trailing bytes below 27. *)
Definition pairParses (c1 c2 : ascii) : bool :=
  match parseInt (two c1 c2) 16 with
  | Some v => (v =? 16 * hexValue c1 + hexValue c2) && (0 <=? v) && (v <? 256)
  | None => false
  end.

Definition adjustedOk (k : nat) : bool :=
  let v := Z.of_nat k in
  match adjustedV (Some v) with
  | String t1 (String t2 EmptyString) =>
      isLowerHexChar t1 && isLowerHexChar t2
      && match parseInt (two t1 t2) 16 with
         | Some n => n =? v + 27
         | None => false
         end
  | _ => false
  end.

(** The signatures of the concrete scenario: 64 bytes [ff] and a trailing
    byte. *)
Definition sampleSignature (trailing : string) : string :=
  repeatString "ff" 64 +:+ trailing.

(** Result of the wallet service's [signMessage]: a completed signature,
    or a denial that carries no [signature] property. *)
Inductive SignatureRes : Type :=
| SuccessfulSignatureRes (signature : string)
| DeniedSignatureRes (pendingTransactionId : string).

Record Wallet : Type := { id : string }.

Record ParaServer : Type := {
  wallets : option (list Wallet);
  signMessage : string -> string -> Outcome SignatureRes
}.

Section CustomSignMessage.
(** [hashMessage] of viem and [hexStringToBase64] of the server SDK, taken
    here as functions on strings that return; what they do on other
    messages, and their own failures, are outside this embedding. *)
Variable hashMessage : string -> string.
Variable hexStringToBase64 : string -> string.

(** Reading [.id] of a missing first wallet, and calling [.slice] on the
    missing [signature] of a denial, throw a [TypeError]. *)
Definition customSignMessage (para : ParaServer) (message : string)
  : Outcome string :=
  let hashedMessage := hashMessage message in
  match wallets para with
  | Some (w :: _) =>
      match signMessage para (id w) (hexStringToBase64 hashedMessage) with
      | Returned (SuccessfulSignatureRes signature) =>
          Returned (normalize signature)
      | Returned (DeniedSignatureRes _) => Thrown "TypeError"
      | Thrown e => Thrown e
      end
  | _ => Thrown "TypeError"
  end.
End CustomSignMessage.

(** Every code unit below 256, and the check that an adjusted trailing
    byte is written with exactly two characters, whatever the last two
    characters of the input were. *)
Definition allAscii : list ascii := map ascii_of_nat (seq 0 256).

Definition pairKeepsLength (c1 c2 : ascii) : bool :=
  let lb := parseInt (two c1 c2) 16 in
  if lessThan lb 27 then (String.length (adjustedV lb) =? 2)%nat else true.

(** A wallet service with one wallet that signs with trailing byte 0. *)
Definition samplePara : ParaServer :=
  {| wallets := Some [{| id := "wallet-1" |}];
     signMessage := fun _ _ =>
       Returned (SuccessfulSignatureRes (sampleSignature "00")) |}.

End Normalizer.

(** ** Server signing orchestrator ([signWithAlchemy]) *)
Module Server.
Import JS.

Definition EXAMPLE_CONTRACT_ADDRESS : string :=
  "0x7920b6d8b07f0b9a3b96f238c64e022278db1419".

(** The verified identity returned by the token verification. *)
Record User : Type := { email : string }.

(** What the handler reads of a request: the value of
    [req.headers.get("Authorization")] ([None] is [null]) and the outcome
    of [req.json()], an object from property names to strings. *)
Record Request : Type := {
  authorization : option string;
  json : Outcome (gmap string string)
}.

Inductive Body : Type :=
| Text (text : string)
| Json (route : string) (userOperationResult : string).

Record Response : Type := { body : Body; status : Z }.

Record UserOperationCallData : Type := { target : string; data : string }.

(** Calls into collaborators, in the order they are made. *)
Inductive Call : Type :=
| CallVerifyToken (token : option string)
| CallHasPregenWallet (pregenIdentifier : string)
| CallGetKeyShareInDB (email : string)
| CallDecrypt (keyShare : string)
| CallSetUserShare (share : string)
| CallCreateParaAccount
| CallCreateAlchemyClient (apiKey policyId : string)
| CallSendUserOperation (uo : list UserOperationCallData).

(** The collaborators and the environment of one request.  The token
    verification, the key-share store and the decryption are the helper
    modules [auth-utils], [keySharesDB] and [encryption-utils]; the others
    are calls into the wallet and relayer SDKs.  The handler sees each of
    them only through what it returns or throws, so each is a parameter;
    [env] is [Bun.env]. *)
Record World : Type := {
  env : gmap string string;
  simulateVerifyToken : option string -> Outcome (option User);
  hasPregenWallet : string -> Outcome bool;
  getKeyShareInDB : string -> Outcome (option string);
  decrypt : string -> Outcome string;
  setUserShare : string -> Outcome unit;
  createParaAccount : Outcome unit;
  createModularAccountAlchemyClient : string -> string -> Outcome unit;
  encodeFunctionData : string -> list Z -> string;
  sendUserOperation : list UserOperationCallData -> Outcome string
}.

(** One step of the handler: go on with a value, return a response early,
    or let an exception escape (the returned promise rejects). *)
Inductive Step (A : Type) : Type :=
| Next (a : A)
| Return (r : Response)
| Reject (e : string).
Arguments Next {A} a.
Arguments Return {A} r.
Arguments Reject {A} e.

(** Handlers thread the log of collaborator calls made so far. *)
Definition Handler (A : Type) : Type := list Call -> Step A * list Call.

#[export] Instance handler_ret : MRet Handler :=
  fun A (a : A) log => (Next a, log).

#[export] Instance handler_bind : MBind Handler :=
  fun A B (k : A -> Handler B) (m : Handler A) log =>
    match m log with
    | (Next a, log') => k a log'
    | (Return r, log') => (Return r, log')
    | (Reject e, log') => (Reject e, log')
    end.

Definition respond {A} (text : string) (status : Z) : Handler A :=
  fun log => (Return {| body := Text text; status := status |}, log).

Definition settle {A} (o : Outcome A) : Step A :=
  match o with
  | Returned a => Next a
  | Thrown e => Reject e
  end.

(** A logged call into a collaborator. *)
Definition call {A} (c : Call) (o : Outcome A) : Handler A :=
  fun log => (settle o, (log ++ [c])%list).

(** Awaiting a value the request itself provides. *)
Definition await {A} (o : Outcome A) : Handler A :=
  fun log => (settle o, log).

Definition demoUserOperations (w : World) : list UserOperationCallData :=
  map (fun x => {| target := EXAMPLE_CONTRACT_ADDRESS;
                   data := encodeFunctionData w "changeX" [x] |})
      [1; 2; 3; 4; 5].

Definition signWithAlchemy (w : World) (req : Request) : Handler Response :=
  let authHeader := authorization req in
  if negb (truthy authHeader)
     || negb (startsWith (default EmptyString authHeader) "Bearer ")
  then respond "Unauthorized" 401
  else
  let token := split " " (default EmptyString authHeader) !! 1%nat in
  user ← call (CallVerifyToken token) (simulateVerifyToken w token);
  match user with
  | None => respond "Unauthorized" 401
  | Some user =>
  parsed ← await (json req);
  let email_ := (parsed : gmap string string) !! "email" in
  if negb (truthy email_) then respond "Email is required" 400
  else
  let email := default EmptyString email_ in
  if negb (String.eqb (Server.email user) email) then respond "Forbidden" 403
  else
  let PARA_API_KEY := env w !! "PARA_API_KEY" in
  let ALCHEMY_API_KEY := env w !! "ALCHEMY_API_KEY" in
  let ALCHEMY_GAS_POLICY_ID := env w !! "ALCHEMY_GAS_POLICY_ID" in
  if negb (truthy PARA_API_KEY) then respond "PARA_API_KEY not set" 500
  else
  if negb (truthy ALCHEMY_API_KEY) || negb (truthy ALCHEMY_GAS_POLICY_ID)
  then respond "ALCHEMY_API_KEY or ALCHEMY_GAS_POLICY_ID not set" 500
  else
  hasPregenWallet ← call (CallHasPregenWallet email) (hasPregenWallet w email);
  if negb hasPregenWallet then respond "Wallet does not exist" 400
  else
  keyShare ← call (CallGetKeyShareInDB email) (getKeyShareInDB w email);
  if negb (truthy keyShare) then respond "Key share does not exist" 400
  else
  let keyShare := default EmptyString keyShare in
  decryptedKeyShare ← call (CallDecrypt keyShare) (decrypt w keyShare);
  call (CallSetUserShare decryptedKeyShare) (setUserShare w decryptedKeyShare);;
  call CallCreateParaAccount (createParaAccount w);;
  let apiKey := default EmptyString ALCHEMY_API_KEY in
  let policyId := default EmptyString ALCHEMY_GAS_POLICY_ID in
  call (CallCreateAlchemyClient apiKey policyId)
       (createModularAccountAlchemyClient w apiKey policyId);;
  let uo := demoUserOperations w in
  userOperationResult ← call (CallSendUserOperation uo) (sendUserOperation w uo);
  mret {| body := Json "signWithAlchemy" userOperationResult; status := 200 |}
  end.

(** How the promise returned by the handler settles. *)
Inductive Settled : Type :=
| Resolved (r : Response)
| Rejected (e : string).

Definition settled (s : Step Response) : Settled :=
  match s with
  | Next r => Resolved r
  | Return r => Resolved r
  | Reject e => Rejected e
  end.

(** Running the handler on a request: how it settles and which
    collaborators it called. *)
Definition run (w : World) (req : Request) : Settled * list Call :=
  let '(s, log) := signWithAlchemy w req [] in (settled s, log).

(** *** The checks of the handler

    The exits of [signWithAlchemy] before it touches the key share, in the
    order of the source, and the response each of them returns. *)
Inductive Gate : Type :=
| GateCredential
| GateToken
| GateEmailPresent
| GateEmailMatch
| GateParaSecret
| GateAlchemySecrets
| GateWallet
| GateKeyShare.

Definition failure (g : Gate) : Response :=
  match g with
  | GateCredential => {| body := Text "Unauthorized"; status := 401 |}
  | GateToken => {| body := Text "Unauthorized"; status := 401 |}
  | GateEmailPresent => {| body := Text "Email is required"; status := 400 |}
  | GateEmailMatch => {| body := Text "Forbidden"; status := 403 |}
  | GateParaSecret => {| body := Text "PARA_API_KEY not set"; status := 500 |}
  | GateAlchemySecrets =>
      {| body := Text "ALCHEMY_API_KEY or ALCHEMY_GAS_POLICY_ID not set";
         status := 500 |}
  | GateWallet => {| body := Text "Wallet does not exist"; status := 400 |}
  | GateKeyShare => {| body := Text "Key share does not exist"; status := 400 |}
  end.

(** [authHeader.split(" ")[1]] *)
Definition bearerToken (h : string) : option string := split " " h !! 1%nat.

(** What it takes to get past each check; every one includes the ones
    before it. *)
Definition passesCredential (req : Request) (h : string) : Prop :=
  authorization req = Some h /\ startsWith h "Bearer " = true.

Definition passesToken (w : World) (req : Request) (h : string) (u : User)
  : Prop :=
  passesCredential req h
  /\ simulateVerifyToken w (bearerToken h) = Returned (Some u).

Definition passesEmailPresent (w : World) (req : Request) (h : string)
  (u : User) (e : string) : Prop :=
  passesToken w req h u
  /\ exists parsed : gmap string string,
       json req = Returned parsed /\ parsed !! "email" = Some e
       /\ e <> EmptyString.

Definition passesEmailMatch (w : World) (req : Request) (h : string)
  (u : User) (e : string) : Prop :=
  passesEmailPresent w req h u e /\ email u = e.

Definition passesParaSecret (w : World) (req : Request) (h : string)
  (u : User) (e : string) : Prop :=
  passesEmailMatch w req h u e /\ truthy (env w !! "PARA_API_KEY") = true.

Definition passesAlchemySecrets (w : World) (req : Request) (h : string)
  (u : User) (e a p : string) : Prop :=
  passesParaSecret w req h u e
  /\ env w !! "ALCHEMY_API_KEY" = Some a /\ a <> EmptyString
  /\ env w !! "ALCHEMY_GAS_POLICY_ID" = Some p /\ p <> EmptyString.

Definition passesWallet (w : World) (req : Request) (h : string)
  (u : User) (e a p : string) : Prop :=
  passesAlchemySecrets w req h u e a p
  /\ hasPregenWallet w e = Returned true.

Definition passesKeyShare (w : World) (req : Request) (h : string)
  (u : User) (e a p ks : string) : Prop :=
  passesWallet w req h u e a p
  /\ getKeyShareInDB w e = Returned (Some ks) /\ ks <> EmptyString.

(** [Violates w req g log]: on request [req] in world [w], check [g] is
    the first one to fail, and [log] lists the collaborator calls made by
    then. *)
Inductive Violates (w : World) (req : Request) : Gate -> list Call -> Prop :=
| violatesCredential :
    (truthy (authorization req) = false
     \/ exists h, authorization req = Some h
                  /\ startsWith h "Bearer " = false) ->
    Violates w req GateCredential []
| violatesToken h :
    passesCredential req h ->
    simulateVerifyToken w (bearerToken h) = Returned None ->
    Violates w req GateToken [CallVerifyToken (bearerToken h)]
| violatesEmailPresent h u (parsed : gmap string string) :
    passesToken w req h u ->
    json req = Returned parsed ->
    truthy (parsed !! "email") = false ->
    Violates w req GateEmailPresent [CallVerifyToken (bearerToken h)]
| violatesEmailMatch h u e :
    passesEmailPresent w req h u e ->
    email u <> e ->
    Violates w req GateEmailMatch [CallVerifyToken (bearerToken h)]
| violatesParaSecret h u e :
    passesEmailMatch w req h u e ->
    truthy (env w !! "PARA_API_KEY") = false ->
    Violates w req GateParaSecret [CallVerifyToken (bearerToken h)]
| violatesAlchemySecrets h u e :
    passesParaSecret w req h u e ->
    (truthy (env w !! "ALCHEMY_API_KEY") = false
     \/ truthy (env w !! "ALCHEMY_GAS_POLICY_ID") = false) ->
    Violates w req GateAlchemySecrets [CallVerifyToken (bearerToken h)]
| violatesWallet h u e a p :
    passesAlchemySecrets w req h u e a p ->
    hasPregenWallet w e = Returned false ->
    Violates w req GateWallet
      [CallVerifyToken (bearerToken h); CallHasPregenWallet e]
| violatesKeyShare h u e a p ks :
    passesWallet w req h u e a p ->
    getKeyShareInDB w e = Returned ks ->
    truthy ks = false ->
    Violates w req GateKeyShare
      [CallVerifyToken (bearerToken h); CallHasPregenWallet e;
       CallGetKeyShareInDB e].

(** The calls that decrypt, install or use the key share: everything from
    decryption to the submission that signs. *)
Definition usesKeyShare (c : Call) : bool :=
  match c with
  | CallDecrypt _ | CallSetUserShare _ | CallCreateParaAccount
  | CallCreateAlchemyClient _ _ | CallSendUserOperation _ => true
  | _ => false
  end.

(** *** A sample deployment *)
Definition alice : User := {| email := "alice@example.com" |}.

Definition sampleEnv : gmap string string :=
  <["PARA_API_KEY" := "para-key"]>
    (<["ALCHEMY_API_KEY" := "alchemy-key"]>
       (<["ALCHEMY_GAS_POLICY_ID" := "policy-id"]> ∅)).

(** Alice's token verifies; a wallet and a key share may exist for her. *)
Definition sampleWorld (env : gmap string string) (wallet : bool)
  (keyShare : option string) (decrypted : Outcome string) : World :=
  {| env := env;
     simulateVerifyToken := fun token =>
       Returned (if bool_decide (token = Some "alice-token")
                 then Some alice else None);
     hasPregenWallet := fun e =>
       Returned (wallet && String.eqb e "alice@example.com");
     getKeyShareInDB := fun e =>
       Returned (if String.eqb e "alice@example.com" then keyShare else None);
     decrypt := fun _ => decrypted;
     setUserShare := fun _ => Returned tt;
     createParaAccount := Returned tt;
     createModularAccountAlchemyClient := fun _ _ => Returned tt;
     encodeFunctionData := fun name _ => name;
     sendUserOperation := fun _ => Returned "0xhash" |}.

Definition aliceWorld : World :=
  sampleWorld sampleEnv true (Some "encrypted-share") (Returned "share").

Definition aliceEmail : string := "alice@example.com".

Definition sampleRequest (auth : option string) (emailField : option string)
  : Request :=
  {| authorization := auth;
     json := Returned (match emailField with
                       | Some e => <["email" := e]> ∅
                       | None => ∅
                       end) |}.

(** Position of each collaborator in the order of the source. *)
Definition rank (c : Call) : nat :=
  match c with
  | CallVerifyToken _ => 0
  | CallHasPregenWallet _ => 1
  | CallGetKeyShareInDB _ => 2
  | CallDecrypt _ => 3
  | CallSetUserShare _ => 4
  | CallCreateParaAccount => 5
  | CallCreateAlchemyClient _ _ => 6
  | CallSendUserOperation _ => 7
  end.

(** A string without a space character. *)
Definition noSpace (s : string) : bool :=
  forallb (fun c => negb (Ascii.eqb c " ")) (list_ascii_of_string s).

(** Requests and worlds of the scenarios. *)
Definition aliceRequest : Request :=
  sampleRequest (Some "Bearer alice-token") (Some aliceEmail).

Definition noWalletWorld : World :=
  sampleWorld sampleEnv false (Some "encrypted-share") (Returned "share").

End Server.

(** ** Client signing widget ([SignMessageDemo]) *)
Module Client.
Import JS.

Inductive StatusType : Type := success | error.

Record Status : Type := {
  show : bool;
  type : StatusType;
  statusMessage : string
}.

(** The component's four state cells. *)
Record State : Type := {
  message : list N;
  signature : string;
  isLoading : bool;
  status : Status
}.

Definition initialState : State :=
  {| message := [];
     signature := EmptyString;
     isLoading := false;
     status := {| show := false; type := success;
                  statusMessage := EmptyString |} |}.

Definition setSignature (v : string) (st : State) : State :=
  {| message := message st; signature := v;
     isLoading := isLoading st; status := status st |}.

Definition setIsLoading (v : bool) (st : State) : State :=
  {| message := message st; signature := signature st;
     isLoading := v; status := status st |}.

Definition setStatus (v : Status) (st : State) : State :=
  {| message := message st; signature := signature st;
     isLoading := isLoading st; status := v |}.

(** What [useCapsule()] provides. *)
Record Capsule : Type := {
  isConnected : bool;
  walletId : option string
}.

(** [capsule.signMessage(walletId, base64Message)]: the promise rejects,
    or resolves to an object from property names to strings. *)
Definition Signer : Type := string -> string -> Outcome (gmap string string).

Inductive Call : Type :=
| CallSignMessage (walletId base64Message : string)
| CallConsoleError (e : string).

(** How the [try] block completes. *)
Inductive Completion : Type :=
| Normal
| Returns
| Throws (e : string).

(** [key in obj] *)
Definition hasProperty (key : string) (obj : gmap string string) : bool :=
  bool_decide (is_Some (obj !! key)).

Definition tryBlock (ctx : Capsule) (signMessage : Signer) (st : State)
  : State * list Call * Completion :=
  if negb (isConnected ctx) then
    (setStatus {| show := true; type := error;
                  statusMessage := "Please connect your wallet to sign a message." |} st,
     [], Returns)
  else if negb (truthy (walletId ctx)) then
    (setStatus {| show := true; type := error;
                  statusMessage := "No wallet ID found. Please reconnect your wallet." |} st,
     [], Returns)
  else
    let walletId := default EmptyString (walletId ctx) in
    let messageToSign := trim (message st) in
    let base64Message := toBase64 (bufferFrom messageToSign) in
    match signMessage walletId base64Message with
    | Thrown e => (st, [CallSignMessage walletId base64Message], Throws e)
    | Returned signature =>
        if hasProperty "pendingTransactionId" signature
           || hasProperty "transactionReviewUrl" signature
        then
          (setStatus {| show := true; type := error;
                        statusMessage := "Message signing was denied." |} st,
           [CallSignMessage walletId base64Message], Returns)
        else
          (setStatus {| show := true; type := success;
                        statusMessage := "Message signed successfully!" |}
             (setSignature ("0x" +:+ interpolate (signature !! "signature")) st),
           [CallSignMessage walletId base64Message], Normal)
    end.

(** [handleSubmit]: the state after the handler has run and the calls it
    made.  [st] is the state of the render the handler was created in;
    [e.preventDefault()] touches the event only and is left out. *)
Definition handleSubmit (ctx : Capsule) (signMessage : Signer) (st : State)
  : State * list Call :=
  let st := setIsLoading true st in
  let '(st, calls, completion) := tryBlock ctx signMessage st in
  let '(st, calls) :=
    match completion with
    | Throws e =>
        (setStatus {| show := true; type := error;
                      statusMessage := "Failed to sign message. Please try again." |} st,
         (calls ++ [CallConsoleError e])%list)
    | _ => (st, calls)
    end in
  (setIsLoading false st, calls).

(** The signing requests among the calls of a run. *)
Definition isSignMessage (c : Call) : bool :=
  match c with
  | CallSignMessage _ _ => true
  | CallConsoleError _ => false
  end.

Definition signingRequests (calls : list Call) : list Call :=
  List.filter isSignMessage calls.


(** *** Reading a payload back

    The receiving side of the signing request, written from the formats
    (RFC 4648 base64 with padding, UTF-8, UTF-16) and not from the code: a
    decoder for each of the three encodings the handler goes through. *)















(** What the component renders of its state: the status banner when
    [status.show], the input and the submit button with their [disabled]
    flags, the button's label, and the signature panel when [signature] is
    not empty. *)
Record View : Type := {
  banner : option (StatusType * string);
  inputDisabled : bool;
  submitDisabled : bool;
  submitLabel : string;
  signaturePanel : option string
}.

Definition render (st : State) : View :=
  {| banner := if show (status st)
               then Some (type (status st), statusMessage (status st))
               else None;
     inputDisabled := isLoading st;
     submitDisabled := match message st with
                       | [] => true
                       | _ :: _ => false
                       end || isLoading st;
     submitLabel := if isLoading st then "Signing Message..." else "Sign Message";
     signaturePanel := if truthy (Some (signature st))
                       then Some (signature st) else None |}.

Definition rejectingSigner : Signer := fun _ _ => Thrown "network down".

(** The scenarios. *)
Definition connected : Capsule :=
  {| isConnected := true; walletId := Some "wallet-1" |}.

Definition disconnected : Capsule :=
  {| isConnected := false; walletId := None |}.

Definition typed (text : string) : State :=
  {| message := units text;
     signature := EmptyString;
     isLoading := false;
     status := {| show := false; type := success;
                  statusMessage := EmptyString |} |}.

Definition signingSigner : Signer :=
  fun _ _ => Returned (<["signature" := "abcd"]> ∅).

Definition pendingSigner : Signer :=
  fun _ _ => Returned (<["pendingTransactionId" := "tx-1"]> ∅).

End Client.

(** * Properties *)

(** ** Strings *)
Section StringFacts.

Lemma append_nil (b : string) : EmptyString +:+ b = b.
Proof. reflexivity. Qed.

Lemma append_cons (c : ascii) (a b : string) :
  String c a +:+ b = String c (a +:+ b).
Proof. reflexivity. Qed.

Lemma length_append (a b : string) :
  String.length (a +:+ b) = (String.length a + String.length b)%nat.
Proof.
  induction a as [|c a IH]; [reflexivity|].
  rewrite append_cons. simpl. now rewrite IH.
Qed.

Lemma append_assoc (a b c : string) : (a +:+ b) +:+ c = a +:+ (b +:+ c).
Proof.
  induction a as [|x a IH]; [reflexivity|].
  rewrite !append_cons. now rewrite IH.
Qed.

Lemma substring_zero_zero (s : string) : substring 0 0 s = EmptyString.
Proof. destruct s; reflexivity. Qed.

Lemma substring_whole (s : string) : substring 0 (String.length s) s = s.
Proof. induction s as [|c s IH]; simpl; [reflexivity | now rewrite IH]. Qed.

Lemma substring_append_left (a b : string) :
  substring 0 (String.length a) (a +:+ b) = a.
Proof.
  induction a as [|c a IH].
  - apply substring_zero_zero.
  - rewrite append_cons. simpl. now rewrite IH.
Qed.

Lemma substring_append_right (a b : string) (m : nat) :
  substring (String.length a) m (a +:+ b) = substring 0 m b.
Proof.
  induction a as [|c a IH]; [reflexivity|].
  rewrite append_cons. simpl. exact IH.
Qed.

(** A string of length [n + 2] is a prefix of length [n] followed by two
    characters. *)
Lemma last_two_characters (n : nat) :
  forall s, String.length s = S (S n) ->
  exists pre c1 c2,
    s = pre +:+ String c1 (String c2 EmptyString) /\ String.length pre = n.
Proof.
  induction n as [|n IH]; intros s Hlen.
  - destruct s as [|c1 [|c2 [|? ?]]]; simpl in Hlen; try discriminate.
    exists EmptyString, c1, c2. split; reflexivity.
  - destruct s as [|c s]; simpl in Hlen; [discriminate|].
    injection Hlen as Hlen.
    destruct (IH s Hlen) as (pre & c1 & c2 & -> & Hpre).
    exists (String c pre), c1, c2. split; [reflexivity | simpl; now rewrite Hpre].
Qed.

Lemma list_ascii_of_append (a b : string) :
  list_ascii_of_string (a +:+ b)
  = (list_ascii_of_string a ++ list_ascii_of_string b)%list.
Proof.
  induction a as [|c a IH]; [reflexivity|].
  rewrite append_cons. simpl. now rewrite IH.
Qed.

End StringFacts.

(** ** [slice] at the two places the normalizer uses it *)
Section SliceFacts.
Import JS.

Lemma slice_last_two (pre : string) (c1 c2 : ascii) :
  slice (pre +:+ String c1 (String c2 EmptyString)) (-2) None
  = String c1 (String c2 EmptyString).
Proof.
  unfold slice, clampIndex. rewrite length_append. simpl String.length.
  set (n := String.length pre).
  replace (-2 <? 0) with true by reflexivity.
  replace (Z.to_nat (Z.max (Z.of_nat (n + 2) + -2) 0)) with n by lia.
  replace (Z.to_nat (Z.max (Z.of_nat (n + 2) - Z.max (Z.of_nat (n + 2) + -2) 0) 0))
    with 2%nat by lia.
  subst n. rewrite substring_append_right. reflexivity.
Qed.

Lemma slice_but_last_two (pre : string) (c1 c2 : ascii) :
  slice (pre +:+ String c1 (String c2 EmptyString)) 0 (Some (-2)) = pre.
Proof.
  unfold slice, clampIndex. rewrite length_append. simpl String.length.
  set (n := String.length pre).
  replace (0 <? 0) with false by reflexivity.
  replace (-2 <? 0) with true by reflexivity.
  replace (Z.to_nat (Z.min 0 (Z.of_nat (n + 2)))) with 0%nat by lia.
  replace (Z.to_nat (Z.max (Z.max (Z.of_nat (n + 2) + -2) 0 - Z.min 0 (Z.of_nat (n + 2))) 0))
    with n by lia.
  subst n. apply substring_append_left.
Qed.

End SliceFacts.

(** ** Hexadecimal characters and the trailing byte *)
Section HexFacts.
Import JS Normalizer.

Lemma isHexChar_enumerated (c : ascii) :
  isHexChar c = true -> In c hexChars.
Proof.
  intros H.
  assert (E : existsb (Ascii.eqb c) hexChars = true).
  { destruct c as [[] [] [] [] [] [] [] []];
      first [ discriminate H | reflexivity ]. }
  apply existsb_exists in E as (x & Hin & Heq).
  apply Ascii.eqb_eq in Heq. now subst x.
Qed.

Lemma pairParses_all :
  forallb (fun c1 => forallb (pairParses c1) hexChars) hexChars = true.
Proof. vm_compute. reflexivity. Qed.

(** Two hexadecimal characters parse to the byte they spell. *)
Lemma parseInt_hex_pair (c1 c2 : ascii) :
  isHexChar c1 = true -> isHexChar c2 = true ->
  exists v, parseInt (two c1 c2) 16 = Some v
            /\ v = 16 * hexValue c1 + hexValue c2 /\ 0 <= v < 256.
Proof.
  intros H1%isHexChar_enumerated H2%isHexChar_enumerated.
  pose proof pairParses_all as A.
  rewrite forallb_forall in A. specialize (A c1 H1).
  rewrite forallb_forall in A. specialize (A c2 H2).
  unfold pairParses in A.
  destruct (parseInt (two c1 c2) 16) as [v|]; [|discriminate].
  exists v. split; [reflexivity|]. lia.
Qed.

Lemma lastByte_append (pre : string) (c1 c2 : ascii) :
  lastByte (pre +:+ two c1 c2) = parseInt (two c1 c2) 16.
Proof. unfold lastByte, two. now rewrite slice_last_two. Qed.

Lemma isHexString_append (a b : string) :
  isHexString (a +:+ b) = isHexString a && isHexString b.
Proof.
  unfold isHexString. rewrite list_ascii_of_append. apply forallb_app.
Qed.

(** A 130-character hexadecimal string, taken apart. *)
Lemma signature_shape (s : string) :
  isSignature130 s ->
  exists pre c1 c2,
    s = pre +:+ two c1 c2 /\ String.length pre = 128%nat
    /\ isHexString pre = true /\ isHexChar c1 = true /\ isHexChar c2 = true.
Proof.
  intros [Hlen Hhex].
  destruct (last_two_characters 128 s Hlen) as (pre & c1 & c2 & -> & Hpre).
  exists pre, c1, c2. fold (two c1 c2) in *.
  rewrite isHexString_append in Hhex.
  apply andb_true_iff in Hhex as [Hp Ht].
  unfold isHexString in Ht. simpl in Ht.
  apply andb_true_iff in Ht as [Ht1 Ht2].
  apply andb_true_iff in Ht2 as [Ht2 _].
  repeat split; assumption.
Qed.

(** The trailing byte of a well-shaped signature is a number below 256. *)
Lemma lastByte_of_signature (s : string) :
  isSignature130 s -> exists v, lastByte s = Some v /\ 0 <= v < 256.
Proof.
  intros (pre & c1 & c2 & -> & _ & _ & H1 & H2)%signature_shape.
  destruct (parseInt_hex_pair c1 c2 H1 H2) as (v & Hv & _ & Hr).
  exists v. now rewrite lastByte_append.
Qed.

Lemma adjustedOk_all : forallb adjustedOk (seq 0 27) = true.
Proof. vm_compute. reflexivity. Qed.

Lemma trailingByte_append (pre : string) (c1 c2 : ascii) :
  trailingByte (pre +:+ two c1 c2) = Some (16 * hexValue c1 + hexValue c2).
Proof.
  induction pre as [|c pre IH]; [reflexivity|].
  rewrite append_cons.
  destruct pre as [|c' pre]; [reflexivity|].
  rewrite append_cons in *. destruct pre as [|c'' pre]; exact IH.
Qed.

(** On hexadecimal input the code reads the trailing byte as the
    specification does. *)
Lemma lastByte_reads_trailing_byte (pre : string) (c1 c2 : ascii) :
  isHexChar c1 = true -> isHexChar c2 = true ->
  lastByte (pre +:+ two c1 c2) = trailingByte (pre +:+ two c1 c2).
Proof.
  intros H1 H2. rewrite lastByte_append, trailingByte_append.
  destruct (parseInt_hex_pair c1 c2 H1 H2) as (v & -> & -> & _). reflexivity.
Qed.

Lemma lastByte_is_trailingByte (s : string) :
  isSignature130 s -> lastByte s = trailingByte s.
Proof.
  intros (pre & c1 & c2 & -> & _ & _ & H1 & H2)%signature_shape.
  now apply lastByte_reads_trailing_byte.
Qed.

(** For a trailing byte below 27 the replacement is two lowercase
    hexadecimal characters that spell the byte plus 27. *)
Lemma adjustedV_low (v : Z) :
  0 <= v < 27 ->
  exists t1 t2,
    adjustedV (Some v) = two t1 t2
    /\ isLowerHexChar t1 = true /\ isLowerHexChar t2 = true
    /\ parseInt (two t1 t2) 16 = Some (v + 27).
Proof.
  intros Hv.
  pose proof adjustedOk_all as A. rewrite forallb_forall in A.
  specialize (A (Z.to_nat v)).
  assert (Hin : In (Z.to_nat v) (seq 0 27)) by (apply in_seq; lia).
  specialize (A Hin). unfold adjustedOk in A.
  rewrite Z2Nat.id in A by lia.
  destruct (adjustedV (Some v)) as [|t1 [|t2 [|? ?]]]; try discriminate.
  exists t1, t2. split; [reflexivity|].
  apply andb_true_iff in A as [A A3]. apply andb_true_iff in A as [A1 A2].
  destruct (parseInt (two t1 t2) 16) as [n|]; [|discriminate].
  apply Z.eqb_eq in A3. subst n. auto.
Qed.

Lemma isLowerHexChar_isHexChar (c : ascii) :
  isLowerHexChar c = true -> isHexChar c = true.
Proof.
  destruct c as [[] [] [] [] [] [] [] []]; intros H;
    first [ discriminate H | reflexivity ].
Qed.

(** The adjustment, on a signature taken apart. *)
Lemma adjustSignature_low (pre : string) (c1 c2 : ascii) (v : Z) :
  parseInt (two c1 c2) 16 = Some v -> v < 27 ->
  adjustSignature (pre +:+ two c1 c2) = pre +:+ adjustedV (Some v).
Proof.
  intros Hv Hlt. unfold adjustSignature.
  rewrite lastByte_append, Hv. simpl lessThan.
  replace (v <? 27) with true by (symmetry; apply Z.ltb_lt; exact Hlt).
  unfold two. now rewrite slice_but_last_two.
Qed.

Lemma adjustSignature_high (s : string) (v : Z) :
  lastByte s = Some v -> 27 <= v -> adjustSignature s = s.
Proof.
  intros Hv Hge. unfold adjustSignature. rewrite Hv. simpl lessThan.
  replace (v <? 27) with false by (symmetry; apply Z.ltb_ge; exact Hge).
  reflexivity.
Qed.

End HexFacts.

(** ** The normalizer *)
Section NormalizerFacts.
Import JS Normalizer.

(** C1: on a 130-character hexadecimal signature whose trailing byte has
    a value below 27, the normalizer returns the first 128 characters
    unchanged (behind the [0x] it puts in front), followed by two lowercase
    hexadecimal characters; the trailing byte of the result is the original
    value plus 27. *)
Theorem normalize_adds_27_to_low_trailing_byte (s : string) (v : Z) :
  isSignature130 s -> trailingByte s = Some v -> v < 27 ->
  exists t,
    normalize s = "0x" +:+ substring 0 128 s +:+ t
    /\ String.length t = 2%nat
    /\ isLowerHexString t = true
    /\ trailingByte (normalize s) = Some (v + 27).
Proof.
  intros Hs Hlb Hlt.
  destruct (signature_shape s Hs) as (pre & c1 & c2 & -> & Hpre & _ & H1 & H2).
  rewrite <- (lastByte_reads_trailing_byte pre c1 c2 H1 H2) in Hlb.
  rewrite lastByte_append in Hlb.
  destruct (parseInt_hex_pair c1 c2 H1 H2) as (v' & Hv' & _ & Hr).
  rewrite Hv' in Hlb. injection Hlb as ->.
  destruct (adjustedV_low v ltac:(lia)) as (t1 & t2 & Ht & L1 & L2 & Hp).
  exists (two t1 t2).
  unfold normalize. rewrite (adjustSignature_low pre c1 c2 v Hv' Hlt), Ht.
  rewrite <- Hpre at 1. rewrite substring_append_left.
  repeat split.
  - unfold isLowerHexString. simpl. now rewrite L1, L2.
  - rewrite <- append_assoc, trailingByte_append.
    destruct (parseInt_hex_pair t1 t2 (isLowerHexChar_isHexChar t1 L1)
                (isLowerHexChar_isHexChar t2 L2)) as (n & Hn & <- & _).
    congruence.
Qed.

Lemma normalize_adds_27_witness :
  exists t,
    normalize (sampleSignature "00")
    = "0x" +:+ substring 0 128 (sampleSignature "00") +:+ t
    /\ String.length t = 2%nat
    /\ isLowerHexString t = true
    /\ trailingByte (normalize (sampleSignature "00")) = Some (0 + 27).
Proof.
  apply (normalize_adds_27_to_low_trailing_byte (sampleSignature "00") 0).
  - split; reflexivity.
  - reflexivity.
  - lia.
Defined.

(** A 130-character hexadecimal string never starts with [0x]. *)
Lemma signature_has_no_prefix (s : string) :
  isSignature130 s -> startsWith s "0x" = false.
Proof.
  intros [Hlen Hhex].
  destruct s as [|a [|b rest]]; try discriminate Hlen.
  unfold isHexString in Hhex. simpl in Hhex.
  apply andb_true_iff in Hhex as [_ Hhex].
  apply andb_true_iff in Hhex as [Hb _].
  destruct (startsWith (String a (String b rest)) "0x") eqn:E; [|reflexivity].
  apply prefix_correct in E. simpl in E.
  rewrite substring_zero_zero in E. injection E as _ ->. discriminate Hb.
Qed.

(** C2: on a 130-character hexadecimal signature whose trailing byte has
    a value of 27 or more, the normalizer returns the input itself behind a
    [0x]; the input, being hexadecimal, did not carry that prefix. *)
Theorem normalize_keeps_high_trailing_byte (s : string) (v : Z) :
  isSignature130 s -> trailingByte s = Some v -> 27 <= v ->
  normalize s = "0x" +:+ s /\ startsWith s "0x" = false.
Proof.
  intros Hs Hlb Hge. rewrite <- (lastByte_is_trailingByte s Hs) in Hlb. split.
  - unfold normalize. now rewrite (adjustSignature_high s v Hlb Hge).
  - now apply signature_has_no_prefix.
Qed.

Lemma normalize_keeps_high_witness :
  normalize (sampleSignature "1b") = "0x" +:+ sampleSignature "1b"
  /\ startsWith (sampleSignature "1b") "0x" = false.
Proof.
  apply (normalize_keeps_high_trailing_byte (sampleSignature "1b") 27).
  - split; reflexivity.
  - reflexivity.
  - lia.
Defined.

(** What the adjustment leaves behind on a well-shaped signature: a
    well-shaped signature with the same first 128 characters and a trailing
    byte of at least 27. *)
Lemma adjustSignature_shape (s : string) :
  isSignature130 s ->
  isSignature130 (adjustSignature s)
  /\ substring 0 128 (adjustSignature s) = substring 0 128 s
  /\ exists v, lastByte (adjustSignature s) = Some v /\ 27 <= v.
Proof.
  intros Hs.
  destruct (signature_shape s Hs) as (pre & c1 & c2 & E & Hpre & Hhex & H1 & H2).
  destruct (parseInt_hex_pair c1 c2 H1 H2) as (v & Hv & _ & Hr).
  destruct (Z.lt_ge_cases v 27) as [Hlt|Hge].
  - destruct (adjustedV_low v ltac:(lia)) as (t1 & t2 & Ht & L1 & L2 & Hp).
    subst s. rewrite (adjustSignature_low pre c1 c2 v Hv Hlt), Ht.
    repeat split.
    + rewrite length_append, Hpre. reflexivity.
    + rewrite isHexString_append, Hhex. unfold isHexString. simpl.
      now rewrite (isLowerHexChar_isHexChar t1 L1), (isLowerHexChar_isHexChar t2 L2).
    + rewrite <- Hpre. now rewrite !substring_append_left.
    + exists (v + 27). rewrite lastByte_append. split; [exact Hp | lia].
  - assert (Hlb : lastByte s = Some v) by (subst s; now rewrite lastByte_append).
    rewrite (adjustSignature_high s v Hlb Hge).
    repeat split; try apply Hs. exists v. split; assumption.
Qed.

(** The trailing byte is read off the last two characters only. *)
Lemma lastByte_behind_prefix (p s : string) :
  (2 <= String.length s)%nat -> lastByte (p +:+ s) = lastByte s.
Proof.
  intros Hlen.
  destruct (String.length s) as [|[|n]] eqn:E; try lia.
  destruct (last_two_characters n s E) as (pre & c1 & c2 & -> & _).
  fold (two c1 c2). now rewrite <- append_assoc, !lastByte_append.
Qed.

(** C3, as the code has it: on a 130-character hexadecimal signature the
    normalizer returns [0x] followed by a 130-character hexadecimal string
    whose first 128 characters are those of the input; the result is two
    characters longer than the input. *)
Theorem normalize_output_shape (s : string) :
  isSignature130 s ->
  exists out,
    normalize s = "0x" +:+ out
    /\ isSignature130 out
    /\ substring 0 128 out = substring 0 128 s
    /\ String.length (normalize s) = (String.length s + 2)%nat.
Proof.
  intros Hs.
  destruct (adjustSignature_shape s Hs) as (Hshape & Hsame & _).
  exists (adjustSignature s). repeat split; try apply Hshape; try exact Hsame.
  unfold normalize. rewrite length_append.
  destruct Hshape as [-> _], Hs as [-> _]. reflexivity.
Qed.

Lemma normalize_output_shape_witness :
  exists out,
    normalize (sampleSignature "00") = "0x" +:+ out
    /\ isSignature130 out
    /\ substring 0 128 out = substring 0 128 (sampleSignature "00")
    /\ String.length (normalize (sampleSignature "00"))
       = (String.length (sampleSignature "00") + 2)%nat.
Proof.
  apply (normalize_output_shape (sampleSignature "00")).
  split; reflexivity.
Defined.

(** C3, as stated, fails: the output is not of the same length as the
    input, neither for the 130 characters the wallet service returns nor
    for an input that already carries [0x]. *)
Lemma normalize_output_longer_than_input :
  isSignature130 (sampleSignature "00")
  /\ String.length (sampleSignature "00") = 130%nat
  /\ String.length (normalize (sampleSignature "00")) = 132%nat
  /\ String.length ("0x" +:+ sampleSignature "00") = 132%nat
  /\ String.length (normalize ("0x" +:+ sampleSignature "00")) = 134%nat
  /\ String.length (normalize (sampleSignature "00"))
     <> String.length (sampleSignature "00").
Proof.
  repeat split; try reflexivity. vm_compute. discriminate.
Qed.

(** The returned string, [0x] in front, is left alone by the adjustment. *)
Lemma adjustSignature_of_normalize (s : string) :
  isSignature130 s -> adjustSignature (normalize s) = normalize s.
Proof.
  intros Hs.
  destruct (adjustSignature_shape s Hs) as ([Hlen _] & _ & v & Hv & Hge).
  apply (adjustSignature_high _ v); [|exact Hge].
  unfold normalize. rewrite lastByte_behind_prefix; [exact Hv|]. lia.
Qed.

(** Feeding the returned string to the template literal again only puts a
    second [0x] in front. *)
Lemma normalize_twice (s : string) :
  isSignature130 s -> normalize (normalize s) = "0x" +:+ normalize s.
Proof.
  intros Hs. unfold normalize at 1.
  now rewrite adjustSignature_of_normalize.
Qed.

Lemma prefixed_differs (s : string) : "0x" +:+ s <> s.
Proof.
  intros H. apply (f_equal String.length) in H.
  rewrite length_append in H. simpl in H. lia.
Qed.

(** C4, as the code has it: on a 130-character hexadecimal signature the
    recovery-byte adjustment applied twice gives what it gives applied
    once, because after one application the trailing byte has a value of
    at least 27, and it leaves the returned string alone too; the
    normalizer as a whole, applied to its own output, changes no character
    of it and puts a second [0x] in front, so it is idempotent only up to
    that prefix. *)
Theorem normalize_idempotent_up_to_prefix (s : string) :
  isSignature130 s ->
  adjustSignature (adjustSignature s) = adjustSignature s
  /\ (exists v, trailingByte (adjustSignature s) = Some v /\ 27 <= v)
  /\ adjustSignature (normalize s) = normalize s
  /\ normalize (normalize s) = "0x" +:+ normalize s
  /\ normalize (normalize s) <> normalize s.
Proof.
  intros Hs.
  destruct (adjustSignature_shape s Hs) as (Hshape & _ & v & Hv & Hge).
  repeat split.
  - exact (adjustSignature_high _ v Hv Hge).
  - exists v. rewrite <- (lastByte_is_trailingByte _ Hshape). split; assumption.
  - now apply adjustSignature_of_normalize.
  - now apply normalize_twice.
  - rewrite (normalize_twice s Hs). apply prefixed_differs.
Qed.

Lemma normalize_idempotent_up_to_prefix_witness :
  adjustSignature (adjustSignature (sampleSignature "00"))
  = adjustSignature (sampleSignature "00")
  /\ (exists v, trailingByte (adjustSignature (sampleSignature "00")) = Some v
                /\ 27 <= v)
  /\ adjustSignature (normalize (sampleSignature "00"))
     = normalize (sampleSignature "00")
  /\ normalize (normalize (sampleSignature "00"))
     = "0x" +:+ normalize (sampleSignature "00")
  /\ normalize (normalize (sampleSignature "00"))
     <> normalize (sampleSignature "00").
Proof.
  apply (normalize_idempotent_up_to_prefix (sampleSignature "00")).
  split; reflexivity.
Defined.

(** C4, as stated, fails: the normalizer applied to its own output does not
    give that output back; the second application puts another [0x] in
    front, for a trailing byte below 27 and for one of 27 alike. *)
Lemma normalize_not_idempotent :
  isSignature130 (sampleSignature "00")
  /\ normalize (sampleSignature "00") = "0x" +:+ sampleSignature "1b"
  /\ normalize (normalize (sampleSignature "00"))
     = "0x0x" +:+ sampleSignature "1b"
  /\ normalize (normalize (sampleSignature "00"))
     <> normalize (sampleSignature "00")
  /\ isSignature130 (sampleSignature "1b")
  /\ normalize (normalize (sampleSignature "1b"))
     <> normalize (sampleSignature "1b").
Proof.
  repeat split; try reflexivity; intros H; vm_compute in H; discriminate H.
Qed.

(** [customSignMessage] returns the normalized signature of the wallet
    service whenever there is a first wallet and the service completes. *)
Lemma customSignMessage_normalizes (hashMessage hexStringToBase64 : string -> string)
  (para : ParaServer) (message : string) (w : Wallet) (ws : list Wallet)
  (signature : string) :
  wallets para = Some (w :: ws) ->
  signMessage para (id w) (hexStringToBase64 (hashMessage message))
  = Returned (SuccessfulSignatureRes signature) ->
  customSignMessage hashMessage hexStringToBase64 para message
  = Returned (normalize signature).
Proof. intros Hw Hs. unfold customSignMessage. now rewrite Hw, Hs. Qed.

(** *** [toString] has fuel enough *)

Lemma digitsOf_more_fuel (R : Z) (fuel : nat) :
  2 <= R ->
  forall n acc,
    0 <= n < 2 ^ Z.of_nat (S fuel) ->
    digitsOf (S (S fuel)) R n acc = digitsOf (S fuel) R n acc.
Proof.
  intros HR. induction fuel as [|fuel IH]; intros n acc Hn.
  - assert (E : n / R = 0) by (apply Z.div_small; change (2 ^ Z.of_nat 1) with 2 in Hn; lia).
    simpl. now rewrite E.
  - change (digitsOf (S (S (S fuel))) R n acc)
      with (let acc' := String (digitChar (n mod R)) acc in
            if n / R =? 0 then acc' else digitsOf (S (S fuel)) R (n / R) acc').
    change (digitsOf (S (S fuel)) R n acc)
      with (let acc' := String (digitChar (n mod R)) acc in
            if n / R =? 0 then acc' else digitsOf (S fuel) R (n / R) acc').
    cbv zeta. destruct (n / R =? 0); [reflexivity|].
    apply IH. split; [apply Z.div_pos; lia|].
    apply Z.div_lt_upper_bound; [lia|].
    rewrite Nat2Z.inj_succ, Z.pow_succ_r in Hn by lia.
    nia.
Qed.

(** Any larger amount of fuel gives the digits [toString] gives. *)
Lemma toString_fuel_suffices (n R : Z) (extra : nat) :
  2 <= R -> 0 <= n ->
  digitsOf (extra + S (Z.to_nat (Z.log2 n))) R n EmptyString
  = toString (Some n) R.
Proof.
  intros HR Hn. unfold toString.
  replace (n <? 0) with false by (symmetry; apply Z.ltb_ge; exact Hn).
  rewrite Z.abs_eq by exact Hn.
  induction extra as [|extra IH]; [reflexivity|].
  rewrite <- IH. simpl Nat.add.
  replace (extra + S (Z.to_nat (Z.log2 n)))%nat
    with (S (extra + Z.to_nat (Z.log2 n)))%nat by lia.
  apply digitsOf_more_fuel; [exact HR|].
  split; [exact Hn|].
  destruct (Z.eq_dec n 0) as [->|Hne]; [apply Z.pow_pos_nonneg; lia|].
  pose proof (Z.log2_spec n ltac:(lia)) as [_ Hup].
  eapply Z.lt_le_trans; [exact Hup|].
  apply Z.pow_le_mono_r; [lia|].
  pose proof (Z.log2_nonneg n). lia.
Qed.

End NormalizerFacts.

(** ** The server handler *)
Section ServerFacts.
Import JS Server.

Lemma truthy_Some (s : string) : s <> EmptyString -> truthy (Some s) = true.
Proof.
  intros H. simpl.
  destruct (String.eqb_spec s EmptyString); [contradiction | reflexivity].
Qed.

Lemma startsWith_nonempty (h : string) :
  startsWith h "Bearer " = true -> h <> EmptyString.
Proof. intros H ->. discriminate H. Qed.

Lemma split_nonempty (sep : ascii) (s : string) : split sep s <> [].
Proof.
  destruct s as [|c s]; simpl; [discriminate|].
  destruct (Ascii.eqb c sep); [discriminate|].
  destruct (split sep s); discriminate.
Qed.

(** After the credential check the token is there: the header has a space
    in it, so [split] gives at least two pieces. *)
Lemma bearerToken_defined (h : string) :
  startsWith h "Bearer " = true -> is_Some (bearerToken h).
Proof.
  intros H. apply prefix_correct in H.
  destruct h as [|c1 [|c2 [|c3 [|c4 [|c5 [|c6 [|c7 h]]]]]]];
    simpl in H; try discriminate H.
  rewrite substring_zero_zero in H. injection H as -> -> -> -> -> -> ->.
  unfold bearerToken. simpl.
  pose proof (split_nonempty " " h) as Hne.
  destruct (split " " h) as [|x xs]; [contradiction|]. simpl. eauto.
Qed.

Ltac open_passes :=
  unfold passesKeyShare, passesWallet, passesAlchemySecrets, passesParaSecret,
    passesEmailMatch, passesEmailPresent, passesToken, passesCredential,
    bearerToken in *;
  repeat match goal with
         | H : _ /\ _ |- _ => destruct H
         | H : exists _, _ |- _ => destruct H
         end;
  repeat match goal with
         | H : startsWith ?h "Bearer " = true |- _ =>
             lazymatch goal with
             | _ : truthy (Some h) = true |- _ => fail
             | _ => pose proof (truthy_Some h (startsWith_nonempty h H))
             end
         | H : ?s <> EmptyString |- _ => apply truthy_Some in H
         | H : email _ <> _ |- _ => apply String.eqb_neq in H
         | H : email _ = _ |- _ => apply String.eqb_eq in H
         end.

(** Runs the handler as far as the facts at hand decide its branches. *)
Ltac run_handler :=
  unfold run, signWithAlchemy;
  repeat first
    [ match goal with
      | H : _ = _ |- _ => rewrite H
      end
    | progress cbv beta iota zeta
        delta [mbind handler_bind call await respond settle mret handler_ret
               default from_option id negb settled app] ].

(** The first check that fails decides the response, and the log stops
    there. *)
Lemma run_violation (w : World) (req : Request) (g : Gate) (log : list Call) :
  Violates w req g log -> run w req = (Resolved (failure g), log).
Proof.
  intros V. destruct V;
    repeat match goal with H : _ \/ _ |- _ => destruct H end;
    open_passes; run_handler; rewrite ?orb_true_r; reflexivity.
Qed.

Lemma violation_log_spares_key_share (w : World) (req : Request) (g : Gate)
  (log : list Call) :
  Violates w req g log -> forallb (fun c => negb (usesKeyShare c)) log = true.
Proof. intros V. destruct V; reflexivity. Qed.

Lemma failure_shared (g1 g2 : Gate) :
  failure g1 = failure g2 ->
  g1 = g2
  \/ (g1 = GateCredential /\ g2 = GateToken)
  \/ (g1 = GateToken /\ g2 = GateCredential).
Proof. destruct g1, g2; intros H; try discriminate H; auto. Qed.

(** Past the six checks the handler decrypts, and hands on whatever the
    decryption returned. *)
Lemma run_past_key_share (w : World) (req : Request) (h : string) (u : User)
  (e a p ks : string) :
  passesKeyShare w req h u e a p ks ->
  let before := [CallVerifyToken (bearerToken h); CallHasPregenWallet e;
                 CallGetKeyShareInDB e; CallDecrypt ks] in
  match decrypt w ks with
  | Thrown x => run w req = (Rejected x, before)
  | Returned d =>
      exists r rest, run w req = (r, (before ++ CallSetUserShare d :: rest)%list)
  end.
Proof.
  intros P. cbn zeta.
  destruct (decrypt w ks) as [d|exn] eqn:Hd; open_passes.
  - destruct (setUserShare w d) eqn:Eshare;
      [destruct (createParaAccount w) eqn:Eaccount;
       [destruct (createModularAccountAlchemyClient w a p) eqn:Eclient;
        [destruct (sendUserOperation w (demoUserOperations w)) eqn:Esend|]|]|];
      run_handler; eexists _, _; reflexivity.
  - run_handler. reflexivity.
Qed.

(** C5, as the code has it: the handler makes eight checks in a fixed
    order (credential presence and shape, credential validity, email
    presence, email match, the wallet-service secret, the relayer secrets,
    wallet existence, key-share existence); the first one that fails ends
    the request with that check's response, before the key share is
    decrypted, installed or used; the responses differ from check to check
    except that the first two both answer 401 Unauthorized.  Decryption is
    no check of the handler: past the checks, a value returned by [decrypt]
    is passed on to [setUserShare], and an exception thrown by it rejects
    the handler's promise without a response. *)
Theorem gates_short_circuit_in_order (w : World) (req : Request) :
  (forall g log,
      Violates w req g log ->
      run w req = (Resolved (failure g), log)
      /\ forallb (fun c => negb (usesKeyShare c)) log = true)
  /\ (forall g1 g2,
         failure g1 = failure g2 ->
         g1 = g2
         \/ (g1 = GateCredential /\ g2 = GateToken)
         \/ (g1 = GateToken /\ g2 = GateCredential))
  /\ (forall h u e a p ks,
         passesKeyShare w req h u e a p ks ->
         let before := [CallVerifyToken (bearerToken h); CallHasPregenWallet e;
                        CallGetKeyShareInDB e; CallDecrypt ks] in
         match decrypt w ks with
         | Thrown x => run w req = (Rejected x, before)
         | Returned d =>
             exists r rest,
               run w req = (r, (before ++ CallSetUserShare d :: rest)%list)
         end).
Proof.
  split; [|split].
  - intros g log V. split.
    + now apply run_violation.
    + now apply (violation_log_spares_key_share w req g).
  - apply failure_shared.
  - apply run_past_key_share.
Qed.

(** Discharges the facts of a concrete request in a concrete world. *)
Ltac concrete :=
  repeat first
    [ reflexivity
    | discriminate
    | split
    | eexists ].

Lemma alice_passes_secrets (wallet : bool) (ks : option string)
  (d : Outcome string) :
  passesAlchemySecrets (sampleWorld sampleEnv wallet ks d) aliceRequest
    "Bearer alice-token" alice aliceEmail "alchemy-key" "policy-id".
Proof. unfold passesAlchemySecrets, passesParaSecret, passesEmailMatch,
         passesEmailPresent, passesToken, passesCredential. concrete. Qed.

Lemma gates_short_circuit_witness :
  run noWalletWorld aliceRequest
  = (Resolved (failure GateWallet),
     [CallVerifyToken (bearerToken "Bearer alice-token");
      CallHasPregenWallet aliceEmail])
  /\ forallb (fun c => negb (usesKeyShare c))
       [CallVerifyToken (bearerToken "Bearer alice-token");
        CallHasPregenWallet aliceEmail] = true.
Proof.
  apply (proj1 (gates_short_circuit_in_order noWalletWorld aliceRequest)
           GateWallet).
  apply (violatesWallet noWalletWorld aliceRequest "Bearer alice-token" alice
           aliceEmail "alchemy-key" "policy-id").
  - unfold passesAlchemySecrets, passesParaSecret, passesEmailMatch,
      passesEmailPresent, passesToken, passesCredential.
    repeat split; try reflexivity; try discriminate.
    exists (<["email" := aliceEmail]> ∅).
    repeat split; try reflexivity; discriminate.
  - reflexivity.
Defined.

(** C5, as stated, fails.  Two different gates answer alike: without a
    credential and with a credential that does not verify the response is
    the same 401 Unauthorized.  And decryption has no failure of the
    handler's own: when [decrypt] throws the promise rejects with that
    exception and no response is returned, exactly as when the wallet
    lookup throws the same exception; when [decrypt] returns, even the
    empty string, the handler goes on to install the share and to submit. *)
Lemma gate_failures_not_distinct :
  Violates aliceWorld (sampleRequest None (Some aliceEmail)) GateCredential []
  /\ Violates aliceWorld (sampleRequest (Some "Bearer stolen") (Some aliceEmail))
       GateToken [CallVerifyToken (Some "stolen")]
  /\ fst (run aliceWorld (sampleRequest None (Some aliceEmail)))
     = fst (run aliceWorld (sampleRequest (Some "Bearer stolen") (Some aliceEmail)))
  /\ fst (run aliceWorld (sampleRequest None (Some aliceEmail)))
     = Resolved {| body := Text "Unauthorized"; status := 401 |}
  /\ run (sampleWorld sampleEnv true (Some "encrypted-share") (Thrown "boom"))
         aliceRequest
     = (Rejected "boom",
        [CallVerifyToken (Some "alice-token"); CallHasPregenWallet aliceEmail;
         CallGetKeyShareInDB aliceEmail; CallDecrypt "encrypted-share"])
  /\ fst (run (sampleWorld sampleEnv true (Some "encrypted-share")
                 (Returned EmptyString)) aliceRequest)
     = Resolved {| body := Json "signWithAlchemy" "0xhash"; status := 200 |}
  /\ In (CallSetUserShare EmptyString)
        (snd (run (sampleWorld sampleEnv true (Some "encrypted-share")
                     (Returned EmptyString)) aliceRequest)).
Proof.
  split; [|split; [|repeat split]].
  - constructor. left. reflexivity.
  - apply (violatesToken aliceWorld _ "Bearer stolen"); concrete.
  - vm_compute. do 4 right. left. reflexivity.
Qed.

(** Every check can be the one that fails. *)
Lemma every_gate_can_fail (g : Gate) :
  exists w req log, Violates w req g log.
Proof.
  destruct g.
  - exists aliceWorld, (sampleRequest None None), []. constructor. now left.
  - exists aliceWorld, (sampleRequest (Some "Bearer stolen") None). eexists.
    apply (violatesToken _ _ "Bearer stolen"); concrete.
  - exists aliceWorld, (sampleRequest (Some "Bearer alice-token") None). eexists.
    apply (violatesEmailPresent _ _ "Bearer alice-token" alice ∅); concrete.
  - exists aliceWorld,
      (sampleRequest (Some "Bearer alice-token") (Some "bob@example.com")). eexists.
    apply (violatesEmailMatch _ _ "Bearer alice-token" alice "bob@example.com");
      unfold passesEmailPresent, passesToken, passesCredential; concrete.
  - exists (sampleWorld ∅ true None (Returned EmptyString)), aliceRequest. eexists.
    apply (violatesParaSecret _ _ "Bearer alice-token" alice aliceEmail);
      unfold passesEmailMatch, passesEmailPresent, passesToken,
        passesCredential; concrete.
  - exists (sampleWorld (<["PARA_API_KEY" := "para-key"]> ∅) true None
              (Returned EmptyString)), aliceRequest. eexists.
    apply (violatesAlchemySecrets _ _ "Bearer alice-token" alice aliceEmail);
      [unfold passesParaSecret, passesEmailMatch, passesEmailPresent,
         passesToken, passesCredential; concrete | left; reflexivity].
  - exists noWalletWorld, aliceRequest. eexists.
    apply (violatesWallet _ _ "Bearer alice-token" alice aliceEmail
             "alchemy-key" "policy-id");
      [apply alice_passes_secrets | reflexivity].
  - exists (sampleWorld sampleEnv true None (Returned EmptyString)),
      aliceRequest. eexists.
    apply (violatesKeyShare _ _ "Bearer alice-token" alice aliceEmail
             "alchemy-key" "policy-id" None);
      [split; [apply alice_passes_secrets | reflexivity]
      | reflexivity | reflexivity].
Qed.

(** C6: a request without an Authorization header, or with one that does
    not start with [Bearer ], is answered 401 Unauthorized, and no
    collaborator has been called: the log is empty. *)
Theorem missing_credential_rejected_without_calls (w : World) (req : Request) :
  (authorization req = None
   \/ exists h, authorization req = Some h /\ startsWith h "Bearer " = false) ->
  run w req
  = (Resolved {| body := Text "Unauthorized"; status := 401 |}, []).
Proof.
  intros H. apply (run_violation w req GateCredential).
  constructor. destruct H as [->|H]; [now left | now right].
Qed.

Lemma missing_credential_witness :
  run aliceWorld (sampleRequest None (Some aliceEmail))
  = (Resolved {| body := Text "Unauthorized"; status := 401 |}, []).
Proof.
  apply (missing_credential_rejected_without_calls aliceWorld
           (sampleRequest None (Some aliceEmail))).
  left. reflexivity.
Defined.

(** C7, as the code has it: a request whose token verifies and whose body
    carries a non-empty email different from the verified identity's email
    is answered 403 Forbidden, whatever wallet and key share exist; the only
    collaborator called is the token verification. *)
Theorem mismatched_email_forbidden (w : World) (req : Request) (h : string)
  (u : User) (parsed : gmap string string) (e : string) :
  authorization req = Some h ->
  startsWith h "Bearer " = true ->
  simulateVerifyToken w (bearerToken h) = Returned (Some u) ->
  json req = Returned parsed ->
  parsed !! "email" = Some e ->
  e <> EmptyString ->
  email u <> e ->
  run w req
  = (Resolved {| body := Text "Forbidden"; status := 403 |},
     [CallVerifyToken (bearerToken h)]).
Proof.
  intros Ha Hs Ht Hj He Hne Hdiff.
  apply (run_violation w req GateEmailMatch).
  apply (violatesEmailMatch w req h u e); [|exact Hdiff].
  repeat split; try assumption. exists parsed. repeat split; assumption.
Qed.

Lemma mismatched_email_witness :
  run aliceWorld
    (sampleRequest (Some "Bearer alice-token") (Some "bob@example.com"))
  = (Resolved {| body := Text "Forbidden"; status := 403 |},
     [CallVerifyToken (bearerToken "Bearer alice-token")]).
Proof.
  apply (mismatched_email_forbidden aliceWorld
           (sampleRequest (Some "Bearer alice-token") (Some "bob@example.com"))
           "Bearer alice-token" alice
           (<["email" := "bob@example.com"]> ∅) "bob@example.com");
    try reflexivity; discriminate.
Defined.

(** C7, as stated, fails: Alice's token verifies, a wallet and a key share
    exist for her, the body's email field is the empty string and so
    differs from her email, and the answer is 400 Email is required, not
    403. *)
Lemma empty_email_is_not_forbidden :
  let req := sampleRequest (Some "Bearer alice-token") (Some EmptyString) in
  simulateVerifyToken aliceWorld (bearerToken "Bearer alice-token")
  = Returned (Some alice)
  /\ hasPregenWallet aliceWorld (email alice) = Returned true
  /\ getKeyShareInDB aliceWorld (email alice) = Returned (Some "encrypted-share")
  /\ (exists parsed : gmap string string,
         json req = Returned parsed /\ parsed !! "email" = Some EmptyString)
  /\ email alice <> EmptyString
  /\ run aliceWorld req
     = (Resolved {| body := Text "Email is required"; status := 400 |},
        [CallVerifyToken (Some "alice-token")])
  /\ status {| body := Text "Email is required"; status := 400 |} <> 403.
Proof.
  cbv zeta. repeat split; try reflexivity; try discriminate.
  eexists. split; reflexivity.
Qed.

End ServerFacts.

(** ** The client widget *)
Section ClientFacts.
Import JS Client.

Example hello_is_signed :
  handleSubmit connected signingSigner (typed "  hello ")
  = ({| message := units "  hello ";
        signature := "0xabcd";
        isLoading := false;
        status := {| show := true; type := success;
                     statusMessage := "Message signed successfully!" |} |},
     [CallSignMessage "wallet-1" "aGVsbG8="]).
Proof. vm_compute. reflexivity. Qed.

(** *** Trimming *)







(** *** The handler *)

Lemma truthy_walletId (wid : string) :
  wid <> EmptyString -> truthy (Some wid) = true.
Proof.
  intros H. simpl.
  destruct (String.eqb_spec wid EmptyString); [contradiction | reflexivity].
Qed.

(** The calls of a run depend on the text only through its trimmed form;
    a signing request, when there is one, comes first and is the only
    one. *)
Lemma handleSubmit_requests (ctx : Capsule) (signMessage : Signer) (st : State) :
  signingRequests (snd (handleSubmit ctx signMessage st))
  = if isConnected ctx && truthy (walletId ctx)
    then [CallSignMessage (default EmptyString (walletId ctx))
            (toBase64 (bufferFrom (trim (message st))))]
    else [].
Proof.
  unfold handleSubmit, tryBlock.
  destruct (isConnected ctx); simpl; [|reflexivity].
  destruct (truthy (walletId ctx)); simpl; [|reflexivity].
  destruct (signMessage _ _) as [obj|e]; simpl; [|reflexivity].
  destruct (hasProperty "pendingTransactionId" obj
            || hasProperty "transactionReviewUrl" obj); reflexivity.
Qed.

(** C8: when no wallet connection is established, a submit leaves the
    error status [Please connect your wallet to sign a message.] and makes
    no call at all, so the signing function is never called; the loading
    flag is cleared and the rest of the state is as it was. *)
Theorem not_connected_shows_error_without_signing (ctx : Capsule)
  (signMessage : Signer) (st : State) :
  isConnected ctx = false ->
  handleSubmit ctx signMessage st
  = ({| message := message st;
        signature := signature st;
        isLoading := false;
        status := {| show := true; type := error;
                     statusMessage :=
                       "Please connect your wallet to sign a message." |} |},
     []).
Proof.
  intros H. unfold handleSubmit, tryBlock. rewrite H. reflexivity.
Qed.

Lemma not_connected_witness :
  handleSubmit disconnected signingSigner (typed "hello")
  = ({| message := message (typed "hello");
        signature := signature (typed "hello");
        isLoading := false;
        status := {| show := true; type := error;
                     statusMessage :=
                       "Please connect your wallet to sign a message." |} |},
     []).
Proof.
  apply (not_connected_shows_error_without_signing disconnected signingSigner
           (typed "hello")).
  reflexivity.
Defined.

(** C9: when the signer resolves to an object that has a
    [pendingTransactionId] or a [transactionReviewUrl] property, the submit
    leaves the error status [Message signing was denied.] and the displayed
    signature is the one from before. *)
Theorem pending_result_shows_denied (ctx : Capsule) (signMessage : Signer)
  (st : State) (wid : string) (obj : gmap string string) :
  isConnected ctx = true ->
  walletId ctx = Some wid ->
  wid <> EmptyString ->
  signMessage wid (toBase64 (bufferFrom (trim (message st)))) = Returned obj ->
  is_Some (obj !! "pendingTransactionId")
  \/ is_Some (obj !! "transactionReviewUrl") ->
  handleSubmit ctx signMessage st
  = ({| message := message st;
        signature := signature st;
        isLoading := false;
        status := {| show := true; type := error;
                     statusMessage := "Message signing was denied." |} |},
     [CallSignMessage wid (toBase64 (bufferFrom (trim (message st))))]).
Proof.
  intros Hc Hw Hne Hs Hp. unfold handleSubmit, tryBlock.
  rewrite Hc, Hw, (truthy_walletId wid Hne). simpl. rewrite Hs.
  assert (E : hasProperty "pendingTransactionId" obj
              || hasProperty "transactionReviewUrl" obj = true).
  { unfold hasProperty. apply orb_true_iff.
    destruct Hp as [Hp|Hp]; [left | right]; now apply bool_decide_eq_true_2. }
  rewrite E. reflexivity.
Qed.

Lemma pending_result_witness :
  handleSubmit connected pendingSigner (typed "hello")
  = ({| message := message (typed "hello");
        signature := signature (typed "hello");
        isLoading := false;
        status := {| show := true; type := error;
                     statusMessage := "Message signing was denied." |} |},
     [CallSignMessage "wallet-1"
        (toBase64 (bufferFrom (trim (message (typed "hello")))))]).
Proof.
  apply (pending_result_shows_denied connected pendingSigner (typed "hello")
           "wallet-1" (<["pendingTransactionId" := "tx-1"]> ∅)).
  - reflexivity.
  - reflexivity.
  - discriminate.
  - reflexivity.
  - left. exists "tx-1". reflexivity.
Defined.

End ClientFacts.

(** * Further properties *)

(** ** The normalizer on arbitrary input *)
Section NormalizerAnyInput.
Import JS Normalizer.

Lemma allAscii_complete (c : ascii) : In c allAscii.
Proof.
  unfold allAscii. rewrite <- (ascii_nat_embedding c).
  apply in_map, in_seq. pose proof (nat_ascii_bounded c). lia.
Qed.

Lemma pairKeepsLength_all :
  forallb (fun c1 => forallb (pairKeepsLength c1) allAscii) allAscii = true.
Proof. vm_compute. reflexivity. Qed.

Lemma adjustedV_two_characters (c1 c2 : ascii) :
  lessThan (parseInt (two c1 c2) 16) 27 = true ->
  String.length (adjustedV (parseInt (two c1 c2) 16)) = 2%nat.
Proof.
  intros Hlt. pose proof pairKeepsLength_all as A.
  rewrite forallb_forall in A. specialize (A c1 (allAscii_complete c1)).
  rewrite forallb_forall in A. specialize (A c2 (allAscii_complete c2)).
  unfold pairKeepsLength in A. rewrite Hlt in A.
  now apply Nat.eqb_eq in A.
Qed.

(** The adjustment on a string taken apart, whatever its characters. *)
Lemma adjustSignature_append (pre : string) (c1 c2 : ascii) :
  adjustSignature (pre +:+ two c1 c2)
  = pre +:+ adjustSignature (two c1 c2).
Proof.
  unfold adjustSignature.
  rewrite lastByte_append.
  change (lastByte (two c1 c2)) with (parseInt (two c1 c2) 16).
  destruct (lessThan (parseInt (two c1 c2) 16) 27); [|reflexivity].
  unfold two. rewrite slice_but_last_two.
  change (slice (String c1 (String c2 EmptyString)) 0 (Some (-2)))
    with EmptyString.
  reflexivity.
Qed.

Lemma adjustSignature_pair_length (c1 c2 : ascii) :
  String.length (adjustSignature (two c1 c2)) = 2%nat.
Proof.
  unfold adjustSignature.
  change (lastByte (two c1 c2)) with (parseInt (two c1 c2) 16).
  destruct (lessThan (parseInt (two c1 c2) 16) 27) eqn:Hlt; [|reflexivity].
  change (slice (two c1 c2) 0 (Some (-2))) with EmptyString.
  rewrite append_nil. now apply adjustedV_two_characters.
Qed.

(** X1: on every string of at least two characters, hexadecimal or not,
    the adjustment keeps the length and everything before the last two
    characters; the returned string is two characters longer than the
    input. *)
Theorem adjustSignature_keeps_length_and_head (s : string) :
  (2 <= String.length s)%nat ->
  String.length (adjustSignature s) = String.length s
  /\ substring 0 (String.length s - 2) (adjustSignature s)
     = substring 0 (String.length s - 2) s
  /\ String.length (normalize s) = (String.length s + 2)%nat.
Proof.
  intros Hlen.
  destruct (String.length s) as [|[|n]] eqn:E; try lia.
  destruct (last_two_characters n s E) as (pre & c1 & c2 & -> & Hpre).
  fold (two c1 c2) in *.
  assert (L : String.length (adjustSignature (pre +:+ two c1 c2)) = S (S n)).
  { rewrite adjustSignature_append, length_append, adjustSignature_pair_length.
    lia. }
  repeat split.
  - exact L.
  - replace (S (S n) - 2)%nat with (String.length pre) by lia.
    now rewrite adjustSignature_append, !substring_append_left.
  - unfold normalize. rewrite length_append, L. simpl. lia.
Qed.

Lemma adjustSignature_keeps_length_witness :
  String.length (adjustSignature "zz-5") = String.length "zz-5"
  /\ substring 0 (String.length "zz-5" - 2) (adjustSignature "zz-5")
     = substring 0 (String.length "zz-5" - 2) "zz-5"
  /\ String.length (normalize "zz-5") = (String.length "zz-5" + 2)%nat.
Proof.
  apply (adjustSignature_keeps_length_and_head "zz-5"). simpl. lia.
Defined.

(** X2: the adjustment looks at the last two characters only, so it
    commutes with putting anything in front; a signature that already
    carries [0x] keeps it and gets a second one. *)
Theorem adjustSignature_commutes_with_prefix (p s : string) :
  (2 <= String.length s)%nat ->
  adjustSignature (p +:+ s) = p +:+ adjustSignature s
  /\ normalize (p +:+ s) = "0x" +:+ p +:+ adjustSignature s.
Proof.
  intros Hlen.
  destruct (String.length s) as [|[|n]] eqn:E; try lia.
  destruct (last_two_characters n s E) as (pre & c1 & c2 & -> & _).
  fold (two c1 c2).
  assert (A : adjustSignature (p +:+ pre +:+ two c1 c2)
              = p +:+ adjustSignature (pre +:+ two c1 c2)).
  { rewrite <- append_assoc, !adjustSignature_append. apply append_assoc. }
  split; [exact A|]. unfold normalize. now rewrite A.
Qed.

Lemma adjustSignature_commutes_witness :
  adjustSignature ("0x" +:+ sampleSignature "00")
  = "0x" +:+ adjustSignature (sampleSignature "00")
  /\ normalize ("0x" +:+ sampleSignature "00")
     = "0x" +:+ "0x" +:+ adjustSignature (sampleSignature "00").
Proof.
  apply (adjustSignature_commutes_with_prefix "0x" (sampleSignature "00")).
  vm_compute. lia.
Defined.

(** Below two characters the length is not kept: one hexadecimal digit
    comes back as two characters. *)
Example adjustSignature_short_input :
  adjustSignature "5" = "20" /\ adjustSignature EmptyString = EmptyString.
Proof. split; reflexivity. Qed.

(** X3: [customSignMessage] as a whole.  If the wallet service completes
    only with 130-character hexadecimal signatures, then whatever
    [customSignMessage] returns is [0x] followed by a 130-character
    hexadecimal signature whose trailing byte is at least 27, with the
    first 128 characters as the service produced them for the first
    wallet and the hashed message. *)
Theorem customSignMessage_returns_valid_v
  (hashMessage hexStringToBase64 : string -> string)
  (para : ParaServer) (message out : string) :
  (forall walletId payload sig,
      signMessage para walletId payload = Returned (SuccessfulSignatureRes sig) ->
      isSignature130 sig) ->
  customSignMessage hashMessage hexStringToBase64 para message = Returned out ->
  exists w ws sig body v,
    wallets para = Some (w :: ws)
    /\ signMessage para (id w) (hexStringToBase64 (hashMessage message))
       = Returned (SuccessfulSignatureRes sig)
    /\ out = "0x" +:+ body
    /\ isSignature130 body
    /\ substring 0 128 body = substring 0 128 sig
    /\ trailingByte body = Some v /\ 27 <= v.
Proof.
  intros Hshape Hret. unfold customSignMessage in Hret.
  destruct (wallets para) as [[|w ws]|] eqn:Hw; try discriminate Hret.
  destruct (signMessage para (id w) _) as [[sig|?]|?] eqn:Hs;
    try discriminate Hret.
  injection Hret as <-.
  pose proof (Hshape _ _ _ Hs) as Hsig.
  destruct (adjustSignature_shape sig Hsig) as (Hbody & Hsame & v & Hv & Hge).
  exists w, ws, sig, (adjustSignature sig), v.
  rewrite <- (lastByte_is_trailingByte _ Hbody).
  repeat split; try assumption; apply Hbody.
Qed.

Lemma customSignMessage_returns_valid_v_witness :
  exists w ws sig body v,
    wallets samplePara = Some (w :: ws)
    /\ signMessage samplePara (id w) (String.rev (String.rev "hello"))
       = Returned (SuccessfulSignatureRes sig)
    /\ normalize (sampleSignature "00") = "0x" +:+ body
    /\ isSignature130 body
    /\ substring 0 128 body = substring 0 128 sig
    /\ trailingByte body = Some v /\ 27 <= v.
Proof.
  apply (customSignMessage_returns_valid_v String.rev String.rev samplePara
           "hello" (normalize (sampleSignature "00"))).
  - intros walletId payload sig H. injection H as <-. split; reflexivity.
  - reflexivity.
Defined.

End NormalizerAnyInput.

(** ** The server handler on every request *)
Section ServerAnyRequest.
Import JS Server.

Ltac open_gates :=
  unfold passesKeyShare, passesWallet, passesAlchemySecrets, passesParaSecret,
    passesEmailMatch, passesEmailPresent, passesToken, passesCredential,
    bearerToken in *;
  repeat match goal with
         | H : _ /\ _ |- _ => destruct H
         | H : exists _, _ |- _ => destruct H
         end;
  repeat match goal with
         | H : startsWith ?h "Bearer " = true |- _ =>
             lazymatch goal with
             | _ : truthy (Some h) = true |- _ => fail
             | _ => pose proof (truthy_Some h (startsWith_nonempty h H))
             end
         | H : ?s <> EmptyString |- _ => apply truthy_Some in H
         | H : email _ <> _ |- _ => apply String.eqb_neq in H
         | H : email _ = _ |- _ => apply String.eqb_eq in H
         end.

Ltac step_handler :=
  unfold run, signWithAlchemy;
  repeat first
    [ match goal with
      | H : _ = _ |- _ => rewrite H
      end
    | progress cbv beta iota zeta
        delta [mbind handler_bind call await respond settle mret handler_ret
               default from_option id negb settled app] ].

Lemma truthy_inv (o : option string) :
  truthy o = true -> exists s, o = Some s /\ s <> EmptyString.
Proof.
  destruct o as [s|]; [|discriminate]. simpl. intros H.
  exists s. split; [reflexivity|]. intros ->. discriminate H.
Qed.

(** Every request ends in one of three ways: a check fails, a collaborator
    throws before the key share is decrypted, or all checks pass. *)
Lemma run_cases (w : World) (req : Request) :
  (exists g log, Violates w req g log)
  \/ (exists x log,
         run w req = (Rejected x, log)
         /\ forallb (fun c => negb (usesKeyShare c)) log = true
         /\ map rank log = seq 0 (length log))
  \/ (exists h u e a p ks, passesKeyShare w req h u e a p ks).
Proof.
  destruct (authorization req) as [h|] eqn:Ha;
    [|left; exists GateCredential, []; constructor; left; now rewrite Ha].
  destruct (startsWith h "Bearer ") eqn:Hs;
    [|left; exists GateCredential, []; constructor; right; eauto].
  assert (P1 : passesCredential req h) by (split; assumption).
  destruct (simulateVerifyToken w (bearerToken h)) as [[u|]|x] eqn:Ht;
    [|left; eexists _, _; apply (violatesToken w req h); assumption
     |right; left; eexists _, _; split;
      [open_gates; step_handler; reflexivity | split; reflexivity]].
  assert (P2 : passesToken w req h u) by (split; assumption).
  destruct (json req) as [parsed|x] eqn:Hj;
    [|right; left; eexists _, _; split;
      [open_gates; step_handler; reflexivity | split; reflexivity]].
  assert (Hmissing : truthy (parsed !! "email") = false ->
                     exists g log, Violates w req g log).
  { intros Hf. eexists _, _.
    apply (violatesEmailPresent w req h u parsed); assumption. }
  destruct (parsed !! "email") as [e|] eqn:He; [|left; now apply Hmissing].
  destruct (String.eqb_spec e EmptyString) as [->|Hne];
    [left; now apply Hmissing|].
  clear Hmissing.
  assert (P3 : passesEmailPresent w req h u e).
  { split; [exact P2|]. exists parsed. repeat split; assumption. }
  destruct (String.eqb_spec (email u) e) as [Heq|Hneq];
    [|left; eexists _, _; apply (violatesEmailMatch w req h u e); assumption].
  assert (P4 : passesEmailMatch w req h u e) by (split; assumption).
  destruct (truthy (env w !! "PARA_API_KEY")) eqn:Hp;
    [|left; eexists _, _; apply (violatesParaSecret w req h u e); assumption].
  assert (P5 : passesParaSecret w req h u e) by (split; assumption).
  destruct (truthy (env w !! "ALCHEMY_API_KEY")) eqn:Hak;
    [|left; eexists _, _; apply (violatesAlchemySecrets w req h u e);
      [assumption | now left]].
  destruct (truthy (env w !! "ALCHEMY_GAS_POLICY_ID")) eqn:Hpol;
    [|left; eexists _, _; apply (violatesAlchemySecrets w req h u e);
      [assumption | now right]].
  destruct (truthy_inv _ Hak) as (a & Ea & Hna).
  destruct (truthy_inv _ Hpol) as (p & Ep & Hnp).
  assert (P6 : passesAlchemySecrets w req h u e a p).
  { split; [exact P5 | repeat split; assumption]. }
  destruct (hasPregenWallet w e) as [[|]|x] eqn:Hw;
    [|left; eexists _, _; apply (violatesWallet w req h u e a p); assumption
     |right; left; eexists _, _; split;
      [open_gates; step_handler; reflexivity | split; reflexivity]].
  assert (P7 : passesWallet w req h u e a p) by (split; assumption).
  destruct (getKeyShareInDB w e) as [ks|x] eqn:Hk;
    [|right; left; eexists _, _; split;
      [open_gates; step_handler; reflexivity | split; reflexivity]].
  destruct (truthy ks) eqn:Hks;
    [|left; eexists _, _; apply (violatesKeyShare w req h u e a p ks);
      assumption].
  destruct (truthy_inv _ Hks) as (k & -> & Hnk).
  right; right. exists h, u, e, a, p, k.
  split; [exact P7 | split; assumption].
Qed.

(** Past the checks the run is decided by what the five remaining calls
    do, in their order. *)
Lemma run_past_checks (w : World) (req : Request) (h : string) (u : User)
  (e a p ks : string) :
  passesKeyShare w req h u e a p ks ->
  let checked := [CallVerifyToken (bearerToken h); CallHasPregenWallet e;
                  CallGetKeyShareInDB e; CallDecrypt ks] in
  run w req
  = match decrypt w ks with
    | Thrown x => (Rejected x, checked)
    | Returned d =>
        match setUserShare w d with
        | Thrown x => (Rejected x, (checked ++ [CallSetUserShare d])%list)
        | Returned _ =>
            match createParaAccount w with
            | Thrown x =>
                (Rejected x,
                 (checked ++ [CallSetUserShare d; CallCreateParaAccount])%list)
            | Returned _ =>
                match createModularAccountAlchemyClient w a p with
                | Thrown x =>
                    (Rejected x,
                     (checked ++ [CallSetUserShare d; CallCreateParaAccount;
                                  CallCreateAlchemyClient a p])%list)
                | Returned _ =>
                    let sent :=
                      (checked ++ [CallSetUserShare d; CallCreateParaAccount;
                                   CallCreateAlchemyClient a p;
                                   CallSendUserOperation (demoUserOperations w)])%list in
                    match sendUserOperation w (demoUserOperations w) with
                    | Thrown x => (Rejected x, sent)
                    | Returned result =>
                        (Resolved {| body := Json "signWithAlchemy" result;
                                     status := 200 |}, sent)
                    end
                end
            end
        end
    end.
Proof.
  intros P. cbv zeta.
  destruct (decrypt w ks) as [d|?] eqn:Ed;
    [destruct (setUserShare w d) eqn:Eshare;
     [destruct (createParaAccount w) eqn:Eaccount;
      [destruct (createModularAccountAlchemyClient w a p) eqn:Eclient;
       [destruct (sendUserOperation w (demoUserOperations w)) eqn:Esend|]|]|]|];
    open_gates; step_handler; reflexivity.
Qed.

(** X4: when all checks pass and every later call returns, the handler
    has called the eight collaborators once each in the order of the
    source, with the decrypted share going to [setUserShare] and the two
    relayer secrets to the relayer client, and answers 200 with the route
    name and the result of the submission. *)
Theorem all_checks_passed_submits (w : World) (req : Request) (h : string)
  (u : User) (e a p ks d result : string) :
  passesKeyShare w req h u e a p ks ->
  decrypt w ks = Returned d ->
  setUserShare w d = Returned tt ->
  createParaAccount w = Returned tt ->
  createModularAccountAlchemyClient w a p = Returned tt ->
  sendUserOperation w (demoUserOperations w) = Returned result ->
  run w req
  = (Resolved {| body := Json "signWithAlchemy" result; status := 200 |},
     [CallVerifyToken (bearerToken h); CallHasPregenWallet e;
      CallGetKeyShareInDB e; CallDecrypt ks; CallSetUserShare d;
      CallCreateParaAccount; CallCreateAlchemyClient a p;
      CallSendUserOperation (demoUserOperations w)]).
Proof.
  intros P Hd Hs Hc Ha Hu.
  rewrite (run_past_checks w req h u e a p ks P). cbv zeta.
  now rewrite Hd, Hs, Hc, Ha, Hu.
Qed.

Lemma alice_passes_key_share :
  passesKeyShare aliceWorld aliceRequest "Bearer alice-token" alice aliceEmail
    "alchemy-key" "policy-id" "encrypted-share".
Proof.
  unfold passesKeyShare, passesWallet, passesAlchemySecrets, passesParaSecret,
    passesEmailMatch, passesEmailPresent, passesToken, passesCredential.
  repeat split; try reflexivity; try discriminate.
  exists (<["email" := aliceEmail]> ∅).
  repeat split; try reflexivity; discriminate.
Defined.

Lemma all_checks_passed_witness :
  run aliceWorld aliceRequest
  = (Resolved {| body := Json "signWithAlchemy" "0xhash"; status := 200 |},
     [CallVerifyToken (bearerToken "Bearer alice-token");
      CallHasPregenWallet aliceEmail;
      CallGetKeyShareInDB aliceEmail; CallDecrypt "encrypted-share";
      CallSetUserShare "share";
      CallCreateParaAccount; CallCreateAlchemyClient "alchemy-key" "policy-id";
      CallSendUserOperation (demoUserOperations aliceWorld)]).
Proof.
  apply (all_checks_passed_submits aliceWorld aliceRequest "Bearer alice-token"
           alice aliceEmail "alchemy-key" "policy-id" "encrypted-share"
           "share" "0xhash");
    [exact alice_passes_key_share | reflexivity ..].
Defined.

(** X5: the key share is only ever touched for the verified identity.  If
    the handler decrypts, installs the share, builds an account or client,
    or submits, then the credential was well-formed, the token verified to
    a user, the body's email was non-empty and equal to that user's email,
    the three secrets were set, and the wallet and the key share exist for
    that email. *)
Theorem key_share_use_implies_all_checks (w : World) (req : Request) (c : Call) :
  In c (snd (run w req)) ->
  usesKeyShare c = true ->
  exists h u e a p ks,
    passesKeyShare w req h u e a p ks /\ email u = e.
Proof.
  intros Hin Huse.
  destruct (run_cases w req)
    as [(g & log & V)|[(x & log & Hrun & Hspare & _)|(h & u & e & a & p & ks & P)]].
  - rewrite (run_violation w req g log V) in Hin. simpl in Hin.
    pose proof (violation_log_spares_key_share w req g log V) as Hspare.
    rewrite forallb_forall in Hspare. specialize (Hspare c Hin).
    rewrite Huse in Hspare. discriminate Hspare.
  - rewrite Hrun in Hin. simpl in Hin.
    rewrite forallb_forall in Hspare. specialize (Hspare c Hin).
    rewrite Huse in Hspare. discriminate Hspare.
  - exists h, u, e, a, p, ks. split; [exact P|]. apply P.
Qed.

Lemma key_share_use_witness :
  exists h u e a p ks,
    passesKeyShare aliceWorld aliceRequest h u e a p ks /\ email u = e.
Proof.
  apply (key_share_use_implies_all_checks aliceWorld aliceRequest
           (CallSetUserShare "share")).
  - vm_compute. do 4 right. left. reflexivity.
  - reflexivity.
Defined.

(** X6: a 200 answer is given only when all checks passed and the five
    later calls all returned; its body carries what the submission
    returned.  Every other response of the handler is one of the eight
    failure responses. *)
Theorem ok_response_implies_submission (w : World) (req : Request)
  (r : Response) :
  fst (run w req) = Resolved r ->
  (status r = 200 ->
   exists h u e a p ks d result,
     passesKeyShare w req h u e a p ks
     /\ decrypt w ks = Returned d
     /\ setUserShare w d = Returned tt
     /\ createParaAccount w = Returned tt
     /\ createModularAccountAlchemyClient w a p = Returned tt
     /\ sendUserOperation w (demoUserOperations w) = Returned result
     /\ r = {| body := Json "signWithAlchemy" result; status := 200 |})
  /\ (status r <> 200 -> exists g, r = failure g).
Proof.
  intros Hr.
  destruct (run_cases w req)
    as [(g & log & V)|[(x & log & Hrun & _)|(h & u & e & a & p & ks & P)]].
  - rewrite (run_violation w req g log V) in Hr. simpl in Hr.
    injection Hr as <-. split; [|eauto].
    intros H200. destruct g; discriminate H200.
  - rewrite Hrun in Hr. discriminate Hr.
  - rewrite (run_past_checks w req h u e a p ks P) in Hr. cbv zeta in Hr.
    destruct (decrypt w ks) as [d|?] eqn:Ed; [|discriminate Hr].
    destruct (setUserShare w d) as [[]|?] eqn:Eshare; [|discriminate Hr].
    destruct (createParaAccount w) as [[]|?] eqn:Eaccount; [|discriminate Hr].
    destruct (createModularAccountAlchemyClient w a p) as [[]|?] eqn:Eclient;
      [|discriminate Hr].
    destruct (sendUserOperation w (demoUserOperations w)) as [result|?] eqn:Esend;
      [|discriminate Hr].
    simpl in Hr. injection Hr as <-. split.
    + intros _. exists h, u, e, a, p, ks, d, result.
      split; [exact P | repeat split; first [assumption | reflexivity]].
    + intros Hne. now contradiction Hne.
Qed.

Lemma ok_response_witness :
  (status {| body := Json "signWithAlchemy" "0xhash"; status := 200 |} = 200 ->
   exists h u e a p ks d result,
     passesKeyShare aliceWorld aliceRequest h u e a p ks
     /\ decrypt aliceWorld ks = Returned d
     /\ setUserShare aliceWorld d = Returned tt
     /\ createParaAccount aliceWorld = Returned tt
     /\ createModularAccountAlchemyClient aliceWorld a p = Returned tt
     /\ sendUserOperation aliceWorld (demoUserOperations aliceWorld)
        = Returned result
     /\ {| body := Json "signWithAlchemy" "0xhash"; status := 200 |}
        = {| body := Json "signWithAlchemy" result; status := 200 |})
  /\ (status {| body := Json "signWithAlchemy" "0xhash"; status := 200 |} <> 200 ->
      exists g, {| body := Json "signWithAlchemy" "0xhash"; status := 200 |}
                = failure g).
Proof.
  apply (ok_response_implies_submission aliceWorld aliceRequest).
  reflexivity.
Defined.

(** X7: whatever the request and the collaborators do, the collaborators
    are called in the order of the source, each at most once and none
    skipped: the log of a run is an initial part of token verification,
    wallet lookup, key-share lookup, decryption, share installation,
    account creation, relayer client creation, submission. *)
Theorem calls_follow_source_order (w : World) (req : Request) :
  map rank (snd (run w req)) = seq 0 (length (snd (run w req))).
Proof.
  destruct (run_cases w req)
    as [(g & log & V)|[(x & log & Hrun & _ & Hord)|(h & u & e & a & p & ks & P)]].
  - rewrite (run_violation w req g log V). destruct V; reflexivity.
  - rewrite Hrun. exact Hord.
  - rewrite (run_past_checks w req h u e a p ks P). cbv zeta.
    destruct (decrypt w ks) as [d|?]; [|reflexivity].
    destruct (setUserShare w d); [|reflexivity].
    destruct (createParaAccount w); [|reflexivity].
    destruct (createModularAccountAlchemyClient w a p); [|reflexivity].
    destruct (sendUserOperation w (demoUserOperations w)); reflexivity.
Qed.

(** X8: a body that cannot be parsed is not answered with a response: once
    the token has verified, a rejected [req.json()] rejects the handler's
    promise with the same error, and only the token verification has been
    called. *)
Theorem unparsable_body_rejects (w : World) (req : Request) (h : string)
  (u : User) (x : string) :
  passesToken w req h u ->
  json req = Thrown x ->
  run w req = (Rejected x, [CallVerifyToken (bearerToken h)]).
Proof. intros P Hj. open_gates. step_handler. reflexivity. Qed.

Lemma unparsable_body_witness :
  run aliceWorld
    {| authorization := Some "Bearer alice-token"; json := Thrown "SyntaxError" |}
  = (Rejected "SyntaxError", [CallVerifyToken (bearerToken "Bearer alice-token")]).
Proof.
  apply (unparsable_body_rejects aliceWorld
           {| authorization := Some "Bearer alice-token";
              json := Thrown "SyntaxError" |}
           "Bearer alice-token" alice "SyntaxError").
  - repeat split; reflexivity.
  - reflexivity.
Defined.

(** *** The token handed to the verification *)

Lemma split_first_piece (t : string) :
  exists tok ps,
    split " " t = tok :: ps
    /\ noSpace tok = true
    /\ ((t = tok /\ ps = [])
        \/ exists r, t = tok +:+ String " " r /\ ps = split " " r).
Proof.
  induction t as [|c t IH].
  - exists EmptyString, []. repeat split. now left.
  - simpl. destruct (Ascii.eqb c " ") eqn:Ec.
    + apply Ascii.eqb_eq in Ec as ->.
      exists EmptyString, (split " " t). repeat split. right. now exists t.
    + destruct IH as (tok & ps & -> & Hno & Hshape).
      exists (String c tok), ps. repeat split.
      * unfold noSpace in *. simpl. now rewrite Ec, Hno.
      * destruct Hshape as [[-> ->]|(r & -> & ->)]; [now left|].
        right. exists r. split; reflexivity.
Qed.

Lemma split_bearer (t : string) :
  split " " ("Bearer " +:+ t) = "Bearer" :: split " " t.
Proof.
  pose proof (split_nonempty " " t) as Hne.
  rewrite !append_cons, append_nil. simpl.
  destruct (split " " t); [contradiction | reflexivity].
Qed.

(** X9: after the credential check, the token handed to the verification
    is the text between [Bearer ] and the next space, or the end of the
    header when there is no further space; it may be empty, it contains no
    space, and what follows it is ignored. *)
Theorem bearer_token_is_text_up_to_next_space (h : string) :
  startsWith h "Bearer " = true ->
  exists tok rest,
    h = "Bearer " +:+ tok +:+ rest
    /\ bearerToken h = Some tok
    /\ noSpace tok = true
    /\ (rest = EmptyString \/ exists r, rest = String " " r).
Proof.
  intros H. apply prefix_correct in H.
  destruct h as [|c1 [|c2 [|c3 [|c4 [|c5 [|c6 [|c7 t]]]]]]];
    simpl in H; try discriminate H.
  rewrite substring_zero_zero in H. injection H as -> -> -> -> -> -> ->.
  change (String "B" (String "e" (String "a" (String "r" (String "e"
            (String "r" (String " " t)))))))
    with ("Bearer " +:+ t).
  destruct (split_first_piece t) as (tok & ps & Hsplit & Hno & Hshape).
  assert (Htok : bearerToken ("Bearer " +:+ t) = Some tok).
  { unfold bearerToken. now rewrite split_bearer, Hsplit. }
  destruct Hshape as [[-> _]|(r & -> & _)].
  - exists tok, EmptyString. repeat split; try assumption; [|now left].
    f_equal. clear. induction tok as [|c tok IH]; [reflexivity|].
    rewrite append_cons. now rewrite <- IH.
  - exists tok, (String " " r). repeat split; try assumption. right. now exists r.
Qed.

Lemma bearer_token_witness :
  exists tok rest,
    "Bearer abc def" = "Bearer " +:+ tok +:+ rest
    /\ bearerToken "Bearer abc def" = Some tok
    /\ noSpace tok = true
    /\ (rest = EmptyString \/ exists r, rest = String " " r).
Proof.
  apply (bearer_token_is_text_up_to_next_space "Bearer abc def").
  reflexivity.
Defined.

End ServerAnyRequest.

(** ** The client widget on every submit *)
Section ClientAnySubmit.
Import JS Client.

Lemma truthy_nonempty (wid : string) :
  wid <> EmptyString -> truthy (Some wid) = true.
Proof.
  intros H. simpl.
  destruct (String.eqb_spec wid EmptyString); [contradiction | reflexivity].
Qed.

(** X10: with a connection and a wallet identifier, when the signer
    resolves to an object that has neither a [pendingTransactionId] nor a
    [transactionReviewUrl] property, the displayed signature becomes [0x]
    followed by the object's [signature] property (the text [undefined]
    when the object has none), and the status is the success message. *)
Theorem completed_result_shows_signature (ctx : Capsule) (signMessage : Signer)
  (st : State) (wid : string) (obj : gmap string string) :
  isConnected ctx = true ->
  walletId ctx = Some wid ->
  wid <> EmptyString ->
  signMessage wid (toBase64 (bufferFrom (trim (message st)))) = Returned obj ->
  obj !! "pendingTransactionId" = None ->
  obj !! "transactionReviewUrl" = None ->
  handleSubmit ctx signMessage st
  = ({| message := message st;
        signature := "0x" +:+ interpolate (obj !! "signature");
        isLoading := false;
        status := {| show := true; type := success;
                     statusMessage := "Message signed successfully!" |} |},
     [CallSignMessage wid (toBase64 (bufferFrom (trim (message st))))]).
Proof.
  intros Hc Hw Hne Hs Hp Hr. unfold handleSubmit, tryBlock.
  rewrite Hc, Hw, (truthy_nonempty wid Hne). simpl. rewrite Hs.
  unfold hasProperty. rewrite Hp, Hr. reflexivity.
Qed.

Lemma completed_result_witness :
  handleSubmit connected signingSigner (typed "hello")
  = ({| message := message (typed "hello");
        signature := "0x" +:+ interpolate
                       ((<["signature" := "abcd"]> ∅ : gmap string string)
                          !! "signature");
        isLoading := false;
        status := {| show := true; type := success;
                     statusMessage := "Message signed successfully!" |} |},
     [CallSignMessage "wallet-1"
        (toBase64 (bufferFrom (trim (message (typed "hello")))))]).
Proof.
  apply (completed_result_shows_signature connected signingSigner
           (typed "hello") "wallet-1" (<["signature" := "abcd"]> ∅));
    try reflexivity. discriminate.
Defined.

(** X11: with a connection but no wallet identifier (undefined or empty),
    a submit leaves the error status [No wallet ID found. Please reconnect
    your wallet.] and makes no call, so the signer is not called. *)
Theorem missing_wallet_id_shows_error_without_signing (ctx : Capsule)
  (signMessage : Signer) (st : State) :
  isConnected ctx = true ->
  truthy (walletId ctx) = false ->
  handleSubmit ctx signMessage st
  = ({| message := message st;
        signature := signature st;
        isLoading := false;
        status := {| show := true; type := error;
                     statusMessage :=
                       "No wallet ID found. Please reconnect your wallet." |} |},
     []).
Proof.
  intros Hc Hw. unfold handleSubmit, tryBlock. rewrite Hc, Hw. reflexivity.
Qed.

Lemma missing_wallet_id_witness :
  handleSubmit {| isConnected := true; walletId := Some EmptyString |}
    signingSigner (typed "hello")
  = ({| message := message (typed "hello");
        signature := signature (typed "hello");
        isLoading := false;
        status := {| show := true; type := error;
                     statusMessage :=
                       "No wallet ID found. Please reconnect your wallet." |} |},
     []).
Proof.
  apply (missing_wallet_id_shows_error_without_signing
           {| isConnected := true; walletId := Some EmptyString |}
           signingSigner (typed "hello")); reflexivity.
Defined.

(** X12: when the signer's promise rejects, the submit leaves the generic
    error status [Failed to sign message. Please try again.], logs the
    error to the console after the one signing call, and keeps the
    displayed signature. *)
Theorem rejected_signing_shows_generic_error (ctx : Capsule)
  (signMessage : Signer) (st : State) (wid x : string) :
  isConnected ctx = true ->
  walletId ctx = Some wid ->
  wid <> EmptyString ->
  signMessage wid (toBase64 (bufferFrom (trim (message st)))) = Thrown x ->
  handleSubmit ctx signMessage st
  = ({| message := message st;
        signature := signature st;
        isLoading := false;
        status := {| show := true; type := error;
                     statusMessage :=
                       "Failed to sign message. Please try again." |} |},
     [CallSignMessage wid (toBase64 (bufferFrom (trim (message st))));
      CallConsoleError x]).
Proof.
  intros Hc Hw Hne Hs. unfold handleSubmit, tryBlock.
  rewrite Hc, Hw, (truthy_nonempty wid Hne). simpl. rewrite Hs. reflexivity.
Qed.

Lemma rejected_signing_witness :
  handleSubmit connected rejectingSigner (typed "hello")
  = ({| message := message (typed "hello");
        signature := signature (typed "hello");
        isLoading := false;
        status := {| show := true; type := error;
                     statusMessage :=
                       "Failed to sign message. Please try again." |} |},
     [CallSignMessage "wallet-1"
        (toBase64 (bufferFrom (trim (message (typed "hello")))));
      CallConsoleError "network down"]).
Proof.
  apply (rejected_signing_shows_generic_error connected rejectingSigner
           (typed "hello") "wallet-1" "network down");
    try reflexivity. discriminate.
Defined.

Lemma startsWith_0x (s : string) : startsWith ("0x" +:+ s) "0x" = true.
Proof.
  unfold startsWith. apply prefix_correct.
  rewrite !append_cons, append_nil. simpl. now rewrite substring_zero_zero.
Qed.

(** X13: whatever the connection, the signer and the state, after a submit
    the loading flag is cleared, the typed text is untouched, a status is
    shown, the signer has been called at most once, and the console is
    written to only on the generic failure; the displayed signature is the
    one from before unless the status is the success message, and then it
    starts with [0x]. *)
Theorem handleSubmit_invariants (ctx : Capsule) (signMessage : Signer)
  (st : State) :
  let st' := fst (handleSubmit ctx signMessage st) in
  let calls := snd (handleSubmit ctx signMessage st) in
  isLoading st' = false
  /\ message st' = message st
  /\ show (status st') = true
  /\ (length (signingRequests calls) <= 1)%nat
  /\ ((type (status st') = error /\ signature st' = signature st)
      \/ (status st' = {| show := true; type := success;
                          statusMessage := "Message signed successfully!" |}
          /\ startsWith (signature st') "0x" = true
          /\ calls = signingRequests calls)).
Proof.
  assert (T : forall (P Q : Prop) (a b c d : Prop),
             a -> b -> c -> d -> P \/ Q -> a /\ b /\ c /\ d /\ (P \/ Q))
    by tauto.
  cbv zeta. unfold handleSubmit, tryBlock.
  destruct (isConnected ctx); simpl;
    [|apply T; first [reflexivity | lia | left; split; reflexivity]].
  destruct (truthy (walletId ctx)); simpl;
    [|apply T; first [reflexivity | lia | left; split; reflexivity]].
  destruct (signMessage _ _) as [obj|x]; simpl;
    [|apply T; first [reflexivity | lia | left; split; reflexivity]].
  destruct (hasProperty "pendingTransactionId" obj
            || hasProperty "transactionReviewUrl" obj);
    simpl; apply T;
    first [reflexivity | lia | left; split; reflexivity | right ].
  repeat split. apply startsWith_0x.
Qed.

(** *** An empty payload *)

Lemma toBase64_empty (bs : list N) : toBase64 bs = EmptyString <-> bs = [].
Proof.
  split; [|now intros ->].
  destruct bs as [|a [|b [|c rest]]]; [reflexivity | discriminate ..].
Qed.

Lemma utf8Bytes_nonempty (cp : N) : utf8Bytes cp <> [].
Proof.
  unfold utf8Bytes.
  destruct (cp <? 128)%N; [discriminate|].
  destruct (cp <? 2048)%N; [discriminate|].
  destruct (cp <? 65536)%N; discriminate.
Qed.

Lemma bufferFrom_empty (s : list N) : bufferFrom s = [] <-> s = [].
Proof.
  split; [|now intros ->].
  unfold bufferFrom. destruct s as [|u rest]; [reflexivity|].
  intros H. exfalso.
  assert (E : exists cp cps, codePoints (u :: rest) = cp :: cps).
  { simpl. destruct (isHighSurrogate u).
    - destruct rest as [|l rest']; [eauto|]. destruct (isLowSurrogate l); eauto.
    - destruct (isLowSurrogate u); eauto. }
  destruct E as (cp & cps & E). rewrite E in H. simpl in H.
  apply app_eq_nil in H as [H _]. now apply utf8Bytes_nonempty in H.
Qed.

Lemma trimStartUnits_empty (m : list N) :
  trimStartUnits m = [] <-> forallb isWhiteSpaceUnit m = true.
Proof.
  induction m as [|u m IH]; simpl; [tauto|].
  destruct (isWhiteSpaceUnit u); simpl; [exact IH|].
  split; discriminate.
Qed.

Lemma forallb_reverse (f : N -> bool) (l : list N) :
  forallb f (rev l) = forallb f l.
Proof.
  induction l as [|x l IH]; simpl; [reflexivity|].
  rewrite forallb_app, IH. simpl. rewrite andb_true_r. apply andb_comm.
Qed.

Lemma trimStartUnits_suffix (m : list N) :
  exists l, m = (l ++ trimStartUnits m)%list /\ forallb isWhiteSpaceUnit l = true.
Proof.
  induction m as [|u m IH]; simpl; [now exists []|].
  destruct (isWhiteSpaceUnit u) eqn:Hu.
  - destruct IH as (l & Hm & Hl). exists (u :: l). simpl.
    rewrite Hu, Hl. split; [now rewrite <- Hm | reflexivity].
  - now exists [].
Qed.

Lemma trim_empty (m : list N) :
  trim m = [] <-> forallb isWhiteSpaceUnit m = true.
Proof.
  unfold trim, trimEndUnits. split.
  - intros H.
    assert (E : trimStartUnits (rev (trimStartUnits m)) = []).
    { rewrite <- (rev_involutive (trimStartUnits _)). now rewrite H. }
    apply trimStartUnits_empty in E. rewrite forallb_reverse in E.
    destruct (trimStartUnits_suffix m) as (l & Hm & Hl).
    rewrite Hm, forallb_app, Hl, E. reflexivity.
  - intros H. apply trimStartUnits_empty in H. now rewrite H.
Qed.

(** X14: with a connection and a wallet identifier, the signer is asked to
    sign the empty payload exactly when the typed text consists of white
    space only (or is empty): such a text is not held back. *)
Theorem empty_payload_iff_blank_text (ctx : Capsule) (signMessage : Signer)
  (st : State) (wid : string) :
  isConnected ctx = true ->
  walletId ctx = Some wid ->
  wid <> EmptyString ->
  (signingRequests (snd (handleSubmit ctx signMessage st))
   = [CallSignMessage wid EmptyString]
   <-> forallb isWhiteSpaceUnit (message st) = true).
Proof.
  intros Hc Hw Hne.
  rewrite handleSubmit_requests, Hc, Hw, (truthy_nonempty wid Hne). simpl.
  rewrite <- trim_empty, <- bufferFrom_empty, <- toBase64_empty.
  split; [intros H; now injection H | now intros ->].
Qed.

Lemma empty_payload_witness :
  signingRequests (snd (handleSubmit connected signingSigner (typed "   ")))
  = [CallSignMessage "wallet-1" EmptyString]
  <-> forallb isWhiteSpaceUnit (message (typed "   ")) = true.
Proof.
  apply (empty_payload_iff_blank_text connected signingSigner (typed "   ")
           "wallet-1"); try reflexivity. discriminate.
Defined.

(** *** What is on screen after a submit *)

(** X15: after any submit the component renders a status banner carrying
    the status just set, the input is enabled again, the button reads
    [Sign Message] and is disabled only for an empty text; the signature
    panel shows what it showed before, unless signing succeeded, and then
    it shows a signature starting with [0x]. *)
Theorem view_after_submit (ctx : Capsule) (signMessage : Signer) (st : State) :
  let st' := fst (handleSubmit ctx signMessage st) in
  banner (render st') = Some (type (status st'), statusMessage (status st'))
  /\ inputDisabled (render st') = false
  /\ submitLabel (render st') = "Sign Message"
  /\ submitDisabled (render st')
     = match message st with [] => true | _ :: _ => false end
  /\ ((type (status st') = error
       /\ signaturePanel (render st') = signaturePanel (render st))
      \/ (type (status st') = success
          /\ exists sig, signaturePanel (render st') = Some ("0x" +:+ sig))).
Proof.
  cbv zeta. unfold handleSubmit, tryBlock.
  destruct (isConnected ctx); simpl;
    [|repeat split; try (destruct (message st); reflexivity); auto].
  destruct (truthy (walletId ctx)); simpl;
    [|repeat split; try (destruct (message st); reflexivity); auto].
  destruct (signMessage _ _) as [obj|x]; simpl;
    [|repeat split; try (destruct (message st); reflexivity); auto].
  destruct (hasProperty "pendingTransactionId" obj
            || hasProperty "transactionReviewUrl" obj); simpl;
    repeat split; try (destruct (message st); reflexivity); auto.
  right. split; [reflexivity|]. eexists. reflexivity.
Qed.

End ClientAnySubmit.

(** ** The signing payload, read back *)
Section SigningPayload.
Import JS Client.

























(** *** Trimming, declaratively *)













End SigningPayload.
